(** * Gaussian output heads of gluon-ts: low-rank GP projector and
      independent (diagonal) Gaussian

    A shallow embedding of
      - [src/gluonts/distribution/lowrank_gp.py]
      - [src/gluonts/distribution/multivariate_independent_gaussian.py]
    over exact real arithmetic.  Tensors are the engine's dense arrays: a
    shape and a row-major buffer.  Calls into the tensor engine that can
    raise are modelled with an explicit [result]; calls that draw random
    numbers (dropout masks, normal samples) thread a generator state. *)

From Stdlib Require Import String.
From Stdlib Require Import Reals List Lia Lra ZArith Bool.
Import ListNotations.
Local Open Scope R_scope.

Set Implicit Arguments.

(** ** Exceptions *)

Inductive exception : Type :=
| ConfigurationError
| MXNetError
| IndexError
| AttributeError.

Inductive result (A : Type) : Type :=
| Ok (a : A)
| Raise (e : exception).

Arguments Ok {A} a.
Arguments Raise {A} e.

Definition rbind {A B} (r : result A) (k : A -> result B) : result B :=
  match r with
  | Ok a => k a
  | Raise e => Raise e
  end.

Declare Scope result_scope.
Delimit Scope result_scope with result.
Notation "x <~ r ;; k" := (rbind r (fun x => k))
  (at level 61, r at next level, right associativity) : result_scope.

(** ** The tensor engine: dense arrays *)

(** An [NDArray]: its shape and its row-major buffer. *)
Record ndarray : Type := NDArray { shape : list nat; data : list R }.

(** Number of entries of an array of shape [s]. *)
Definition size (s : list nat) : nat := fold_right Nat.mul 1%nat s.

(** The buffer has as many entries as the shape says. *)
Definition wf (t : ndarray) : Prop := length (data t) = size (shape t).

(** The engine never yields an array without axes: where every axis is
    reduced or squeezed away, the result has shape [(1,)]. *)
Definition at_least_1d (s : list nat) : list nat :=
  match s with
  | [] => [1%nat]
  | _ => s
  end.

(** Extent of the trailing axis and the axes before it. *)
Definition last_dim (s : list nat) : nat := last s 1%nat.
Definition lead (s : list nat) : list nat := removelast s.

Fixpoint map2 {A B C} (f : A -> B -> C) (l1 : list A) (l2 : list B) : list C :=
  match l1, l2 with
  | a :: l1', b :: l2' => f a b :: map2 f l1' l2'
  | _, _ => []
  end.

(** [chunks n k l]: the first [k] consecutive blocks of [n] entries. *)
Fixpoint chunks {A} (n k : nat) (l : list A) : list (list A) :=
  match k with
  | O => []
  | S k' => firstn n l :: chunks n k' (skipn n l)
  end.

(** The rows of an array: its slices along the trailing axis. *)
Definition rows (t : ndarray) : list (list R) :=
  chunks (last_dim (shape t)) (size (lead (shape t))) (data t).

Definition Rsum (l : list R) : R := fold_right Rplus 0 l.

(** Elementwise application: [F.log], [F.square], [x * c], [x + c], ... *)
Definition nd_map (f : R -> R) (t : ndarray) : ndarray :=
  NDArray (shape t) (map f (data t)).

(** [t.sum(axis=-1, keepdims=...)]. *)
Definition sum_last (keepdims : bool) (t : ndarray) : ndarray :=
  NDArray (if keepdims then lead (shape t) ++ [1%nat]
           else at_least_1d (lead (shape t)))
          (map Rsum (rows t)).

(** [t.squeeze(axis=-1)]: raises unless the trailing axis has extent 1. *)
Definition squeeze_last (t : ndarray) : result ndarray :=
  if (last_dim (shape t) =? 1)%nat
  then Ok (NDArray (at_least_1d (lead (shape t))) (data t))
  else Raise MXNetError.

(** [F.concat(a, b, dim=-1)]: the leading axes must agree. *)
Definition concat_last (a b : ndarray) : result ndarray :=
  if list_eq_dec Nat.eq_dec (lead (shape a)) (lead (shape b))
  then Ok (NDArray (lead (shape a) ++ [(last_dim (shape a) + last_dim (shape b))%nat])
                   (concat (map2 (@app R) (rows a) (rows b))))
  else Raise MXNetError.

(** *** Broadcasting *)

(** Shapes are aligned on the right by padding with leading 1s. *)
Definition pad (k : nat) (s : list nat) : list nat :=
  repeat 1%nat (k - length s) ++ s.

(** Axis by axis the extents must agree or one of them is 1. *)
Fixpoint bshape (s1 s2 : list nat) : option (list nat) :=
  match s1, s2 with
  | [], [] => Some []
  | a :: s1', b :: s2' =>
      match bshape s1' s2' with
      | Some s =>
          if (a =? b)%nat then Some (a :: s)
          else if (a =? 1)%nat then Some (b :: s)
          else if (b =? 1)%nat then Some (a :: s)
          else None
      | None => None
      end
  | _, _ => None
  end.

Definition broadcast_shape (s1 s2 : list nat) : option (list nat) :=
  let k := Nat.max (length s1) (length s2) in
  bshape (pad k s1) (pad k s2).

(** [bcast s_in s_out d]: the buffer [d] of shape [s_in] repeated along
    the axes where [s_in] has extent 1 and [s_out] does not. *)
Fixpoint bcast (s_in s_out : list nat) (d : list R) : list R :=
  match s_in, s_out with
  | a :: s_in', b :: s_out' =>
      if (a =? b)%nat
      then flat_map (bcast s_in' s_out') (chunks (size s_in') a d)
      else concat (repeat (bcast s_in' s_out' d) b)
  | _, _ => d
  end.

Definition broadcast_to (s : list nat) (t : ndarray) : list R :=
  bcast (pad (length s) (shape t)) s (data t).

(** [F.broadcast_add], [F.broadcast_minus], [F.broadcast_mul],
    [F.broadcast_div] and the arithmetic operators between two arrays. *)
Definition broadcast_op (f : R -> R -> R) (a b : ndarray) : result ndarray :=
  match broadcast_shape (shape a) (shape b) with
  | Some s => Ok (NDArray s (map2 f (broadcast_to s a) (broadcast_to s b)))
  | None => Raise MXNetError
  end.

(** [F.eye(N)]. *)
Definition eye_row (n i : nat) : list R :=
  map (fun j => if (i =? j)%nat then 1 else 0) (seq 0 n).

Definition eye (N : Z) : result ndarray :=
  if (1 <=? N)%Z
  then Ok (NDArray [Z.to_nat N; Z.to_nat N]
                   (flat_map (eye_row (Z.to_nat N)) (seq 0 (Z.to_nat N))))
  else Raise MXNetError.

(** [F.Activation(x, act_type='softrelu')], elementwise log(1 + exp(x)). *)
Definition softrelu (z : R) : R := ln (1 + exp z).

Definition Activation_softrelu (t : ndarray) : ndarray := nd_map softrelu t.

(** [x.zeros_like()], [x.ones_like()]. *)
Definition zeros_like (t : ndarray) : ndarray := nd_map (fun _ => 0) t.
Definition ones_like (t : ndarray) : ndarray := nd_map (fun _ => 1) t.

(** *** Stochastic primitives and the generator state *)

(** The engine handle [F] of [hybrid_forward(self, F, x)].  Its random
    primitives are left abstract: [Dropout] is what a
    [gluon.nn.Dropout(rate)] layer does to its input (a random mask while
    training, nothing otherwise) and [sample_normal] draws from independent
    normals with the given locations and scales. *)
Class Engine : Type := {
  rng : Type;
  Dropout : R -> ndarray -> rng -> result (ndarray * rng);
  sample_normal : ndarray -> ndarray -> rng -> result (ndarray * rng)
}.

Section Monad.
Context {F : Engine}.

Definition M (A : Type) : Type := rng -> result (A * rng).

Definition ret {A} (a : A) : M A := fun st => Ok (a, st).

Definition bind {A B} (m : M A) (k : A -> M B) : M B :=
  fun st =>
    match m st with
    | Ok (a, st') => k a st'
    | Raise e => Raise e
    end.

Definition lift {A} (r : result A) : M A :=
  fun st =>
    match r with
    | Ok a => Ok (a, st)
    | Raise e => Raise e
    end.
End Monad.

Declare Scope monad_scope.
Delimit Scope monad_scope with monad.
Notation "x <- m ;; k" := (bind m (fun x => k))
  (at level 61, m at next level, right associativity) : monad_scope.

(** Python's default arguments. *)
Definition default {A} (d : A) (o : option A) : A :=
  match o with
  | Some a => a
  | None => d
  end.

(** Python's [l[i]]. *)
Definition getitem {A} (l : list A) (i : nat) : result A :=
  match nth_error l i with
  | Some a => Ok a
  | None => Raise IndexError
  end.

(** ** Gluon layers *)

(** Modelled from the spec: [gluon.nn.Dense(units, flatten=False)], the
    standard affine projection along the trailing axis, and
    [gluon.nn.HybridSequential]; neither is among the sources.  [weight]
    has one row per output unit, [bias] one entry per unit. *)
Record Dense : Type := {
  units : Z;
  prefix : string;
  weight : list (list R);
  bias : list R
}.

Definition dot (x w : list R) : R := Rsum (map2 Rmult x w).

Definition Dense_row (d : Dense) (x : list R) : list R :=
  map2 (fun w b => dot x w + b) (weight d) (bias d).

(** The parameters have shapes [(units, in_units)] and [(units,)] with
    [units >= 1], and the input's trailing axis has [in_units] entries. *)
Definition Dense_ok (d : Dense) (n : nat) : bool :=
  (1 <=? units d)%Z
  && (length (weight d) =? Z.to_nat (units d))%nat
  && (length (bias d) =? Z.to_nat (units d))%nat
  && forallb (fun w => (length w =? n)%nat) (weight d).

Definition Dense_forward (d : Dense) (x : ndarray) : result ndarray :=
  if Dense_ok d (last_dim (shape x))
  then Ok (NDArray (lead (shape x) ++ [Z.to_nat (units d)])
                   (flat_map (Dense_row d) (rows x)))
  else Raise MXNetError.

Inductive layer : Type :=
| LDense (d : Dense)
| LDropout (rate : R).

(** A [HybridSequential]: its children in the order they were added. *)
Definition HybridSequential : Type := list layer.

Section Layers.
Context {F : Engine}.
Local Open Scope monad_scope.

Definition layer_forward (l : layer) (x : ndarray) : M ndarray :=
  match l with
  | LDense d => lift (Dense_forward d x)
  | LDropout rate => Dropout rate x
  end.

Fixpoint net_forward (net : HybridSequential) (x : ndarray) : M ndarray :=
  match net with
  | [] => ret x
  | l :: net' => y <- layer_forward l x ;; net_forward net' y
  end.
End Layers.

(** ** [gluonts.distribution.lowrank_multivariate_gaussian] *)

Module lowrank_multivariate_gaussian.
(** The two names [lowrank_gp] imports from this module, which is not
    among the sources: the function [inv_softplus] and the constant
    [sigma_minimum]. *)
Class exports : Type := {
  inv_softplus : R -> R;
  sigma_minimum : R
}.
End lowrank_multivariate_gaussian.

(** ** Distribution objects *)

Inductive Bijection : Type :=
| AffineTransformation (loc scale : option ndarray).

(** The distribution objects [LowrankGPOutput.distribution] builds, as the
    constructor calls that build them. *)
Inductive Distribution : Type :=
| LowrankMultivariateGaussian (rank : Z) (distr_args : list ndarray) (dim : option Z)
| TransformedDistribution (base : Distribution) (transforms : list Bijection).

Inductive dist_class : Type :=
| cls_LowrankMultivariateGaussian
| cls_MultivariateIndependentGaussian.

(** ** [lowrank_gp.py] *)

Module GPArgProj.
Record t : Type := {
  param_dim_args : list (string * Z);
  mu_ratio : R;
  sigma_init : R;
  sigma_minimum : R;
  W_ratio : R;
  rank : Z;
  proj : list HybridSequential
}.

Section Methods.
Context {F : Engine} {I : lowrank_multivariate_gaussian.exports}.
Local Open Scope monad_scope.

(** The local function [make] of [__init__].  [params name] stands for
    the values held by the weight and bias of the layer
    [distr_<name>_]. *)
Definition make (params : string -> list (list R) * list R)
           (dropout_rate : R) (name : string) (param_dim : Z)
  : HybridSequential :=
  let net := [LDense {| units := param_dim;
                        prefix := "distr_" ++ name ++ "_";
                        weight := fst (params name);
                        bias := snd (params name) |}] in
  if Rlt_dec 0 dropout_rate
  then net ++ [LDropout dropout_rate]
  else net.

(** [__init__]; a keyword that is not passed is [None].  The decorator
    [validated()] checks the declared types of the arguments, which the
    types of this definition already fix; [register_child] is
    bookkeeping of the block and leaves no trace here. *)
Definition init (params : string -> list (list R) * list R)
           (rank : Z) (sigma_init sigma_minimum mu_ratio dropout_rate : option R)
  : result t :=
  let sigma_init := default 1 sigma_init in
  let sigma_minimum :=
    default lowrank_multivariate_gaussian.sigma_minimum sigma_minimum in
  let mu_ratio := default 1 mu_ratio in
  let dropout_rate := default 0 dropout_rate in
  let param_dim_args := [("mu", 1%Z); ("sigma", 1%Z); ("w", rank)]%string in
  Ok {| param_dim_args := param_dim_args;
        mu_ratio := mu_ratio;
        sigma_init := sigma_init;
        sigma_minimum := sigma_minimum;
        W_ratio := 1;
        rank := rank;
        proj := map (fun '(name, param_dim) =>
                       make params dropout_rate name param_dim)
                    param_dim_args |}.

Definition d_bias (self : t) : R :=
  if Req_dec_T (sigma_init self) 0
  then 0
  else lowrank_multivariate_gaussian.inv_softplus (sigma_init self ^ 2).

Definition hybrid_forward (self : t) (x : ndarray)
  : M (ndarray * ndarray * ndarray) :=
  proj0 <- lift (getitem (proj self) 0) ;;
  y0 <- net_forward proj0 x ;;
  mu_vector <- lift (squeeze_last y0) ;;
  let mu := nd_map (fun v => v * mu_ratio self) mu_vector in
  proj2 <- lift (getitem (proj self) 2) ;;
  y2 <- net_forward proj2 x ;;
  let W_matrix := nd_map (fun v => v * W_ratio self) y2 in
  x_plus_w <- lift (concat_last x (sum_last true (nd_map Rsqr W_matrix))) ;;
  proj1 <- lift (getitem (proj self) 1) ;;
  y1 <- net_forward proj1 x_plus_w ;;
  D_vector <- lift (squeeze_last y1) ;;
  let D_positive :=
    nd_map (fun v => v + sigma_minimum self)
           (Activation_softrelu (nd_map (fun v => v + d_bias self) D_vector)) in
  ret (mu, D_positive, W_matrix).
End Methods.
End GPArgProj.

Module LowrankGPOutput.
Record t : Type := {
  dist_cls : dist_class;
  dim : option Z;
  rank : Z;
  args_dim : list (string * Z);
  mu_bias : R;
  sigma_init : R;
  mu_ratio : R;
  dropout_rate : R
}.

Section Methods.
Context {F : Engine} {I : lowrank_multivariate_gaussian.exports}.

Definition init (rank : Z) (dim : option Z)
           (sigma_init mu_ratio dropout_rate : option R) : t :=
  {| dist_cls := cls_LowrankMultivariateGaussian;
     dim := dim;
     rank := rank;
     args_dim := [("mu", 1%Z); ("sigma", 1%Z); ("w", rank)]%string;
     mu_bias := 0;
     sigma_init := default 1 sigma_init;
     mu_ratio := default 1 mu_ratio;
     dropout_rate := default 0 dropout_rate |}.

Definition get_args_proj (params : string -> list (list R) * list R)
           (self : t) : result GPArgProj.t :=
  GPArgProj.init params (rank self)
                 (Some (sigma_init self)) None
                 (Some (mu_ratio self)) (Some (dropout_rate self)).

Definition distribution (self : t) (distr_args : list ndarray)
           (scale : option ndarray) (dim : option Z) : Distribution :=
  let dist := LowrankMultivariateGaussian (rank self) distr_args dim in
  match scale with
  | None => dist
  | Some s =>
      TransformedDistribution dist [AffineTransformation None (Some s)]
  end.

Definition event_shape (self : t) : list (option Z) := [dim self].

Definition event_dim (self : t) : Z := 1.
End Methods.
End LowrankGPOutput.

(** ** Helpers of [gluonts.distribution.distribution] *)

(** Modelled from the spec: [softplus], which [distribution.py] (not among
    the sources) exports; the domain map's positivity activation,
    the smooth log(1 + exp(z)). *)
Definition softplus (x : ndarray) : ndarray := Activation_softrelu x.

(** Modelled from the spec: [_sample_multiple] of [distribution.py] (not
    among the sources).  With [num_samples] given, every parameter gets a
    new leading axis of that extent, so that a sample has shape
    [(num_samples, *batch_shape, *event_shape)]. *)
Definition expand_param (p : ndarray) (num_samples : option Z) : result ndarray :=
  match num_samples with
  | None => Ok p
  | Some k =>
      if (1 <=? k)%Z
      then Ok (NDArray (Z.to_nat k :: shape p)
                       (concat (repeat (data p) (Z.to_nat k))))
      else Raise MXNetError
  end.

Section SampleMultiple.
Context {F : Engine}.
Local Open Scope monad_scope.

Definition sample_multiple (sample_func : ndarray -> ndarray -> M ndarray)
           (mu sigma : ndarray) (num_samples : option Z) : M ndarray :=
  mu' <- lift (expand_param mu num_samples) ;;
  sigma' <- lift (expand_param sigma num_samples) ;;
  sample_func mu' sigma'.
End SampleMultiple.

(** ** [multivariate_independent_gaussian.py] *)

Module MultivariateIndependentGaussian.
Record t : Type := {
  mu : ndarray;
  sigma : ndarray;
  dim : option Z
}.

Definition is_reparameterizable : bool := true.

Section Methods.
Context {F : Engine}.
(** [gluonts.support.erf.erf], not among the sources, applied entry by
    entry. *)
Variable erf : R -> R.

Definition init (mu sigma : ndarray) (dim : option Z) : t :=
  {| mu := mu; sigma := sigma; dim := dim |}.

Definition batch_shape (self : t) : list nat := shape (mu self).

(** [self.mu.shape[:-1]] *)
Definition event_shape (self : t) : list nat := removelast (shape (mu self)).

Definition event_dim (self : t) : Z := 1.

Definition log_prob (self : t) (x : ndarray) : result ndarray :=
  (let a := nd_map (fun v => v + 1 / 2 * ln (2 * PI)) (nd_map ln (sigma self)) in
   d <~ broadcast_op Rminus x (mu self) ;;
   q <~ broadcast_op Rdiv d (sigma self) ;;
   s <~ broadcast_op Rplus a (nd_map (fun v => 1 / 2 * v) (nd_map Rsqr q)) ;;
   Ok (nd_map (fun v => -1 * v) (sum_last false s)))%result.

Definition mean (self : t) : ndarray := mu self.

(** [self.sigma * F.eye(self.dim)]; the engine rejects [F.eye(None)]. *)
Definition stddev (self : t) : result ndarray :=
  match dim self with
  | None => Raise MXNetError
  | Some n => (e <~ eye n ;; broadcast_op Rmult (sigma self) e)%result
  end.

(** The names an instance answers to: what [__init__] sets, the class
    attribute and the members of the class.  Modelled from the spec: the
    base class [Distribution] is not among the sources; its contract names
    [batch_shape], [event_shape], [event_dim], [log_prob], [mean],
    [stddev], [sample] and [sample_rep], and no [F]. *)
Definition attributes : list string :=
  ["mu"; "sigma"; "dim"; "is_reparameterizable"; "batch_shape"; "event_shape";
   "event_dim"; "log_prob"; "mean"; "stddev"; "cdf"; "sample";
   "sample_rep"]%string.

(** [self.<name>]: an [AttributeError] for any other name. *)
Definition getattr (self : t) (name : string) : result unit :=
  if existsb (String.eqb name) attributes then Ok tt else Raise AttributeError.

(** [cdf] starts with [F = self.F] and goes on through that handle. *)
Definition cdf (self : t) (x : ndarray) : result ndarray :=
  (handle <~ getattr self "F" ;;
   d <~ broadcast_op Rminus x (mu self) ;;
   u <~ broadcast_op Rdiv d (nd_map (fun v => v * sqrt 2) (sigma self)) ;;
   Ok (nd_map (fun v => (v + 1) / 2) (nd_map erf u)))%result.

Definition sample (self : t) (num_samples : option Z) : M ndarray :=
  sample_multiple sample_normal (mu self) (sigma self) num_samples.

Definition sample_rep (self : t) (num_samples : option Z) : M ndarray :=
  let s (mu sigma : ndarray) : M ndarray :=
    (raw_samples <- sample_normal (zeros_like mu) (ones_like sigma) ;;
     scaled <- lift (broadcast_op Rmult sigma raw_samples) ;;
     lift (broadcast_op Rplus scaled mu))%monad in
  sample_multiple s (mu self) (sigma self) num_samples.
End Methods.
End MultivariateIndependentGaussian.

Module MultivariateIndependentGaussianOutput.
Record t : Type := {
  args_dim : list (string * Z);
  distr_cls : dist_class;
  dim : Z
}.

Definition init (dim : Z) : t :=
  {| args_dim := [("mu", dim); ("sigma", dim)]%string;
     distr_cls := cls_MultivariateIndependentGaussian;
     dim := dim |}.

Definition domain_map (mu sigma : ndarray) : ndarray * ndarray :=
  (mu, softplus sigma).

Definition event_shape (self : t) : list Z := [dim self].
End MultivariateIndependentGaussianOutput.

(** ** The formulas of the specification, row by row *)

(** The w projection of one row of features: one affine form per rank. *)
Definition w_projection (Ww : list (list R)) (bw : list R) (xr : list R) : list R :=
  map2 (fun w b => dot xr w + b) Ww bw.

(** The location of one row: its mu projection times [mu_ratio]. *)
Definition mu_of_row (wm : list R) (bm mu_ratio : R) (xr : list R) : R :=
  (dot xr wm + bm) * mu_ratio.

(** The diagonal of one row: the sigma projection of the row extended by
    the sum of squares of its w projection, shifted by the bias, through
    the smooth activation, plus the floor. *)
Definition D_of_row (ws : list R) (bs : R) (Ww : list (list R)) (bw : list R)
           (bias floor : R) (xr : list R) : R :=
  softrelu (dot (xr ++ [Rsum (map Rsqr (w_projection Ww bw xr))]) ws + bs + bias)
  + floor.

(** The log density of one observation [x] under independent normals. *)
Definition log_density (x mu sigma : list R) : R :=
  - Rsum (map (fun '(x_d, mu_d, sigma_d) =>
                 ln sigma_d + 1 / 2 * ln (2 * PI)
                 + 1 / 2 * ((x_d - mu_d) / sigma_d) ^ 2)
              (combine (combine x mu) sigma)).

(** The buffer of the square matrix with [sigma] on its diagonal. *)
Definition diag (sigma : list R) : list R :=
  flat_map (fun i => map (fun j => if (i =? j)%nat then nth i sigma 0 else 0)
                         (seq 0 (length sigma)))
           (seq 0 (length sigma)).

(** The entries [log_prob] sums, one per coordinate. *)
Definition log_term (p : R * R * R) : R :=
  let '(x_d, mu_d, sigma_d) := p in
  ln sigma_d + 1 / 2 * ln (2 * PI) + 1 / 2 * ((x_d - mu_d) / sigma_d) ^ 2.

(** ** An engine and an import table to run examples with *)

(** Prediction mode: dropout does nothing, and the generator always draws
    the location. *)
Definition inference_engine : Engine :=
  {| rng := unit;
     Dropout := fun _ x st => Ok (x, st);
     sample_normal := fun mu _ st => Ok (mu, st) |}.

(** The algebraic inverse of log(1 + exp(x)) and a floor of one
    thousandth. *)
Definition reference_exports : lowrank_multivariate_gaussian.exports :=
  {| lowrank_multivariate_gaussian.inv_softplus := fun y => ln (exp y - 1);
     lowrank_multivariate_gaussian.sigma_minimum := 1 / 1000 |}.

(** ** Inputs for the examples *)

(** A projector of rank 1 over two hidden features, and two rows of
    features. *)
Definition params0 (name : string) : list (list R) * list R :=
  if String.eqb name "mu" then ([[1; 0]], [0])
  else if String.eqb name "sigma" then ([[0; 0; 1]], [0])
  else ([[1; 1]], [0]).

Definition x0 : ndarray := NDArray [2%nat; 2%nat] [1; 2; 3; 4].

(** A batch of two observations over three coordinates. *)
Definition mu23 : ndarray := NDArray [2%nat; 3%nat] [0; 0; 0; 0; 0; 0].
Definition sigma23 : ndarray := NDArray [2%nat; 3%nat] [1; 1; 1; 1; 1; 1].

(** A batch of two observations over two coordinates. *)
Definition sigma22 : ndarray := NDArray [2%nat; 2%nat] [1; 2; 3; 4].

(** The same projector before training: the sigma layer holds zeros. *)
Definition params_untrained (name : string) : list (list R) * list R :=
  if String.eqb name "mu" then ([[1; 0]], [0])
  else if String.eqb name "sigma" then ([[0; 0; 0]], [0])
  else ([[1; 1]], [0]).

(** * Properties *)

(** ** Lists, blocks and rows *)

Lemma map2_length {A B C} (f : A -> B -> C) l1 l2 :
  length (map2 f l1 l2) = Nat.min (length l1) (length l2).
Proof.
  revert l2; induction l1 as [|a l1 IH]; intros [|b l2]; simpl; auto.
Qed.

Lemma map2_map_r {A B B' C} (f : A -> B' -> C) (g : B -> B') l1 l2 :
  map2 f l1 (map g l2) = map2 (fun a b => f a (g b)) l1 l2.
Proof.
  revert l2; induction l1 as [|a l1 IH]; intros [|b l2]; simpl; auto.
  now rewrite IH.
Qed.

Lemma map2_firstn {A B C} (f : A -> B -> C) n l1 l2 :
  firstn n (map2 f l1 l2) = map2 f (firstn n l1) (firstn n l2).
Proof.
  revert l1 l2; induction n as [|n IH]; intros [|a l1] [|b l2]; simpl; auto.
  now rewrite IH.
Qed.

Lemma map2_skipn {A B C} (f : A -> B -> C) n l1 l2 :
  skipn n (map2 f l1 l2) = map2 f (skipn n l1) (skipn n l2).
Proof.
  revert l1 l2; induction n as [|n IH]; intros l1 l2; [reflexivity|].
  destruct l1 as [|a l1]; [reflexivity|].
  destruct l2 as [|b l2]; simpl; [|apply IH].
  now destruct (skipn n l1).
Qed.

Lemma chunks_length {A} n k (l : list A) : length (chunks n k l) = k.
Proof.
  revert l; induction k as [|k IH]; intros l; simpl; auto.
Qed.

Lemma chunks_map {A B} (f : A -> B) n k l :
  chunks n k (map f l) = map (map f) (chunks n k l).
Proof.
  revert l; induction k as [|k IH]; intros l; simpl; auto.
  now rewrite firstn_map, skipn_map, IH.
Qed.

Lemma chunks_block_length {A} n k (l : list A) :
  length l = (k * n)%nat -> Forall (fun c => length c = n) (chunks n k l).
Proof.
  revert l; induction k as [|k IH]; intros l H; simpl; constructor.
  - rewrite length_firstn. simpl in H. lia.
  - apply IH. rewrite length_skipn. simpl in H. lia.
Qed.

Lemma concat_chunks {A} n k (l : list A) :
  length l = (k * n)%nat -> concat (chunks n k l) = l.
Proof.
  revert l; induction k as [|k IH]; intros l H; simpl.
  - destruct l; simpl in *; [reflexivity | discriminate].
  - rewrite IH.
    + apply firstn_skipn.
    + rewrite length_skipn. simpl in H. lia.
Qed.

(** Blocks of a buffer that was assembled from blocks of the right length. *)
Lemma chunks_flat_map {A B} (f : A -> list B) n (l : list A) :
  Forall (fun a => length (f a) = n) l ->
  chunks n (length l) (flat_map f l) = map f l.
Proof.
  induction 1 as [|a l Ha _ IH]; simpl; auto.
  subst n.
  rewrite firstn_app, skipn_app, Nat.sub_diag, firstn_all, skipn_all.
  simpl. now rewrite app_nil_r, IH.
Qed.

Lemma flat_map_length_const {A B} (f : A -> list B) n (l : list A) :
  Forall (fun a => length (f a) = n) l ->
  length (flat_map f l) = (length l * n)%nat.
Proof.
  induction 1 as [|a l Ha _ IH]; simpl; auto.
  rewrite length_app, IH, Ha. reflexivity.
Qed.

Lemma chunks_singletons {A} (l : list A) :
  chunks 1 (length l) l = map (fun a => [a]) l.
Proof.
  induction l as [|a l IH]; simpl; auto.
  now rewrite IH.
Qed.

Lemma size_app s1 s2 : size (s1 ++ s2) = (size s1 * size s2)%nat.
Proof.
  induction s1 as [|a s1 IH]; simpl; [lia|].
  rewrite IH. lia.
Qed.

Lemma lead_last s : s <> [] -> lead s ++ [last_dim s] = s.
Proof.
  intros H. unfold lead, last_dim. symmetry. now apply app_removelast_last.
Qed.

Lemma size_lead_last s : s <> [] -> size s = (size (lead s) * last_dim s)%nat.
Proof.
  intros H. rewrite <- (lead_last H) at 1. rewrite size_app. simpl. lia.
Qed.

Lemma lead_snoc s n : lead (s ++ [n]) = s.
Proof. unfold lead. apply removelast_last. Qed.

Lemma last_dim_snoc s n : last_dim (s ++ [n]) = n.
Proof. unfold last_dim. apply last_last. Qed.

(** The rows of a well-formed array, put back together, are its buffer. *)

Lemma rows_length t : length (rows t) = size (lead (shape t)).
Proof. apply chunks_length. Qed.

Lemma rows_nd_map f t : rows (nd_map f t) = map (map f) (rows t).
Proof. unfold rows; simpl. apply chunks_map. Qed.

(** ** Broadcasting between arrays of one shape *)

Lemma pad_same s : pad (length s) s = s.
Proof. unfold pad. now rewrite Nat.sub_diag. Qed.

Lemma bshape_same s : bshape s s = Some s.
Proof.
  induction s as [|a s IH]; simpl; auto.
  now rewrite IH, Nat.eqb_refl.
Qed.

Lemma broadcast_shape_same s : broadcast_shape s s = Some s.
Proof.
  unfold broadcast_shape. rewrite Nat.max_id, pad_same. apply bshape_same.
Qed.

Lemma flat_map_id_on {A} (f : list A -> list A) (l : list (list A)) :
  Forall (fun c => f c = c) l -> flat_map f l = concat l.
Proof.
  induction 1 as [|c l Hc _ IH]; simpl; auto.
  now rewrite Hc, IH.
Qed.

Lemma bcast_same s d : length d = size s -> bcast s s d = d.
Proof.
  revert d; induction s as [|a s IH]; intros d H; simpl; auto.
  rewrite Nat.eqb_refl. simpl in H.
  assert (Hb : Forall (fun c => length c = size s) (chunks (size s) a d))
    by now apply chunks_block_length.
  rewrite flat_map_id_on.
  - now apply concat_chunks.
  - eapply Forall_impl; [|exact Hb]. intros c Hc. now apply IH.
Qed.

Lemma broadcast_to_same t : wf t -> broadcast_to (shape t) t = data t.
Proof.
  intros W. unfold broadcast_to. rewrite pad_same. now apply bcast_same.
Qed.

(** Between two well-formed arrays of one shape a binary operator works
    entry by entry. *)
Lemma broadcast_op_same f a b :
  wf a -> wf b -> shape b = shape a ->
  broadcast_op f a b = Ok (NDArray (shape a) (map2 f (data a) (data b))).
Proof.
  intros Wa Wb E. unfold broadcast_op. rewrite E, broadcast_shape_same.
  rewrite (broadcast_to_same Wa). rewrite <- E at 2.
  now rewrite (broadcast_to_same Wb).
Qed.

Lemma wf_nd_map f t : wf t -> wf (nd_map f t).
Proof. unfold wf; simpl. now rewrite length_map. Qed.

Lemma wf_map2 (f : R -> R -> R) s (d1 d2 : list R) :
  length d1 = size s -> length d2 = size s -> wf (NDArray s (map2 f d1 d2)).
Proof.
  intros H1 H2. unfold wf; simpl. rewrite map2_length. lia.
Qed.

(** ** Positivity of the smooth activation *)

Lemma softrelu_pos z : 0 < softrelu z.
Proof.
  unfold softrelu. rewrite <- ln_1. apply ln_increasing; [lra|].
  pose proof (exp_pos z). lra.
Qed.

(** ** Running a computation of [M] *)

Section MonadFacts.
Context {F : Engine}.

Lemma bind_Ok {A B} (m : M A) (k : A -> M B) st b st' :
  bind m k st = Ok (b, st') <->
  exists a st1, m st = Ok (a, st1) /\ k a st1 = Ok (b, st').
Proof.
  unfold bind. split.
  - destruct (m st) as [[a st1]|e]; [|discriminate].
    intros H. now exists a, st1.
  - intros (a & st1 & -> & H). exact H.
Qed.

Lemma lift_Ok {A} (r : result A) st a st' :
  lift r st = Ok (a, st') <-> r = Ok a /\ st' = st.
Proof.
  unfold lift. split.
  - destruct r; [|discriminate]. intros [= -> ->]. now split.
  - intros [-> ->]. reflexivity.
Qed.

Lemma ret_Ok {A} (a : A) st b st' :
  ret a st = Ok (b, st') <-> b = a /\ st' = st.
Proof.
  unfold ret. split.
  - intros [= -> ->]. now split.
  - intros [-> ->]. reflexivity.
Qed.

Lemma squeeze_last_Ok t u :
  squeeze_last t = Ok u <->
  last_dim (shape t) = 1%nat /\
  u = NDArray (at_least_1d (lead (shape t))) (data t).
Proof.
  unfold squeeze_last. destruct (Nat.eqb_spec (last_dim (shape t)) 1).
  - split.
    + intros [= <-]. now split.
    + intros [_ ->]. reflexivity.
  - split; [discriminate | intros [H _]; contradiction].
Qed.
End MonadFacts.

(** ** The forward pass of the GP projector, step by step *)

Section ForwardPass.
Context {F : Engine} {I : lowrank_multivariate_gaussian.exports}.

(** What [hybrid_forward] returns, read off its body: the three nets of
    [self.proj] are run on [x], on [x] and on [x] extended by the squared
    norm of each row of [W]. *)
Lemma hybrid_forward_steps (self : GPArgProj.t) x st mu D W st' :
  GPArgProj.hybrid_forward self x st = Ok (mu, D, W, st') <->
  exists proj0 proj1 proj2 y0 y1 st1 st2 x_plus_w,
    getitem (GPArgProj.proj self) 0 = Ok proj0 /\
    getitem (GPArgProj.proj self) 1 = Ok proj1 /\
    getitem (GPArgProj.proj self) 2 = Ok proj2 /\
    net_forward proj0 x st = Ok (y0, st1) /\
    (exists y2, net_forward proj2 x st1 = Ok (y2, st2) /\
                W = nd_map (fun v => v * GPArgProj.W_ratio self) y2) /\
    concat_last x (sum_last true (nd_map Rsqr W)) = Ok x_plus_w /\
    net_forward proj1 x_plus_w st2 = Ok (y1, st') /\
    last_dim (shape y0) = 1%nat /\
    last_dim (shape y1) = 1%nat /\
    mu = NDArray (at_least_1d (lead (shape y0)))
                 (map (fun v => v * GPArgProj.mu_ratio self) (data y0)) /\
    D = NDArray (at_least_1d (lead (shape y1)))
                (map (fun v => softrelu (v + GPArgProj.d_bias self)
                               + GPArgProj.sigma_minimum self) (data y1)).
Proof.
  unfold GPArgProj.hybrid_forward. split.
  - intros H.
    apply bind_Ok in H as (proj0 & s0 & H0 & H). apply lift_Ok in H0 as [H0 ->].
    apply bind_Ok in H as (y0 & st1 & Hy0 & H).
    apply bind_Ok in H as (mu_vector & s1 & Hm & H). apply lift_Ok in Hm as [Hm ->].
    apply bind_Ok in H as (proj2 & s2 & H2 & H). apply lift_Ok in H2 as [H2 ->].
    apply bind_Ok in H as (y2 & st2 & Hy2 & H).
    apply bind_Ok in H as (x_plus_w & s3 & Hc & H). apply lift_Ok in Hc as [Hc ->].
    apply bind_Ok in H as (proj1 & s4 & H1 & H). apply lift_Ok in H1 as [H1 ->].
    apply bind_Ok in H as (y1 & st3 & Hy1 & H).
    apply bind_Ok in H as (D_vector & s5 & Hd & H). apply lift_Ok in Hd as [Hd ->].
    apply ret_Ok in H as [H ->]. injection H as -> -> ->.
    apply squeeze_last_Ok in Hm as [Lm ->].
    apply squeeze_last_Ok in Hd as [Ld ->].
    exists proj0, proj1, proj2, y0, y1, st1, st2, x_plus_w.
    repeat split; auto.
    + now exists y2.
    + unfold Activation_softrelu, nd_map; simpl. now rewrite !map_map.
  - intros (proj0 & proj1 & proj2 & y0 & y1 & st1 & st2 & x_plus_w
            & H0 & H1 & H2 & Hy0 & (y2 & Hy2 & ->) & Hc & Hy1 & Lm & Ld & -> & ->).
    apply bind_Ok. exists proj0, st. split; [now apply lift_Ok|].
    apply bind_Ok. exists y0, st1. split; [exact Hy0|].
    apply bind_Ok. eexists _, st1. split.
    { apply lift_Ok. split; [|reflexivity]. apply squeeze_last_Ok. now split. }
    apply bind_Ok. exists proj2, st1. split; [now apply lift_Ok|].
    apply bind_Ok. exists y2, st2. split; [exact Hy2|].
    apply bind_Ok. exists x_plus_w, st2. split; [now apply lift_Ok|].
    apply bind_Ok. exists proj1, st2. split; [now apply lift_Ok|].
    apply bind_Ok. exists y1, st'. split; [exact Hy1|].
    apply bind_Ok. eexists _, st'. split.
    { apply lift_Ok. split; [|reflexivity]. apply squeeze_last_Ok. now split. }
    apply ret_Ok. split; [|reflexivity].
    unfold Activation_softrelu, nd_map; simpl. now rewrite !map_map.
Qed.
End ForwardPass.

(** ** Dense layers, row by row *)

Lemma rows_build s u (f : list R -> list R) (l : list (list R)) :
  length l = size s ->
  Forall (fun a => length (f a) = u) l ->
  rows (NDArray (s ++ [u]) (flat_map f l)) = map f l.
Proof.
  intros Hl Hf. unfold rows; simpl.
  rewrite last_dim_snoc, lead_snoc, <- Hl. now apply chunks_flat_map.
Qed.

Lemma rows_block_length t :
  wf t -> shape t <> [] ->
  Forall (fun r => length r = last_dim (shape t)) (rows t).
Proof.
  intros W H. unfold rows. apply chunks_block_length.
  rewrite W. now apply size_lead_last.
Qed.

Lemma Dense_ok_spec d n :
  Dense_ok d n = true <->
  (1 <= units d)%Z /\
  length (weight d) = Z.to_nat (units d) /\
  length (bias d) = Z.to_nat (units d) /\
  Forall (fun w => length w = n) (weight d).
Proof.
  unfold Dense_ok. rewrite !andb_true_iff, Z.leb_le, !Nat.eqb_eq, forallb_forall.
  rewrite Forall_forall. split.
  - intros [[[H1 H2] H3] H4]. repeat split; auto.
    intros w Hw. apply Nat.eqb_eq. now apply H4.
  - intros (H1 & H2 & H3 & H4). repeat split; auto.
    intros w Hw. apply Nat.eqb_eq. now apply H4.
Qed.

Lemma Dense_row_length d n x :
  Dense_ok d n = true -> length (Dense_row d x) = Z.to_nat (units d).
Proof.
  intros H. apply Dense_ok_spec in H as (_ & H2 & H3 & _).
  unfold Dense_row. rewrite map2_length. lia.
Qed.

Lemma Dense_forward_Ok d x :
  Dense_ok d (last_dim (shape x)) = true ->
  Dense_forward d x =
  Ok (NDArray (lead (shape x) ++ [Z.to_nat (units d)])
              (flat_map (Dense_row d) (rows x))).
Proof. intros H. unfold Dense_forward. now rewrite H. Qed.

Lemma rows_Dense d x :
  Dense_ok d (last_dim (shape x)) = true ->
  rows (NDArray (lead (shape x) ++ [Z.to_nat (units d)])
                (flat_map (Dense_row d) (rows x)))
  = map (Dense_row d) (rows x).
Proof.
  intros H. apply rows_build.
  - apply rows_length.
  - apply Forall_forall. intros r _. eapply Dense_row_length; eauto.
Qed.

(** [W.square().sum(axis=-1, keepdims=True)]: one entry per row. *)
Lemma rows_sum_sq W :
  rows (sum_last true (nd_map Rsqr W))
  = map (fun wr => [Rsum (map Rsqr wr)]) (rows W).
Proof.
  unfold rows at 1; simpl.
  rewrite last_dim_snoc, lead_snoc, rows_nd_map, !map_map.
  rewrite <- (rows_length W) at 1.
  rewrite <- (length_map (fun wr => Rsum (map Rsqr wr)) (rows W)).
  rewrite chunks_singletons. now rewrite map_map.
Qed.

(** The input of the sigma projection: every row of [x] followed by the
    sum of squares of the same row of [W]. *)
Lemma concat_x_sum_sq x W :
  concat_last x (sum_last true (nd_map Rsqr W)) =
  if list_eq_dec Nat.eq_dec (lead (shape x)) (lead (shape W))
  then Ok (NDArray (lead (shape x) ++ [(last_dim (shape x) + 1)%nat])
                   (concat (map2 (fun xr wr => xr ++ [Rsum (map Rsqr wr)])
                                 (rows x) (rows W))))
  else Raise MXNetError.
Proof.
  unfold concat_last. rewrite rows_sum_sq, map2_map_r.
  simpl shape. rewrite lead_snoc, last_dim_snoc. reflexivity.
Qed.

Lemma map2_diag {A B C} (f : A -> B -> C) (g : A -> B) l :
  map2 f l (map g l) = map (fun a => f a (g a)) l.
Proof. induction l as [|a l IH]; simpl; auto. now rewrite IH. Qed.

Lemma nd_map_mult_1 t : nd_map (fun v => v * 1) t = t.
Proof.
  destruct t as [s d]. unfold nd_map; simpl. f_equal.
  rewrite <- (map_id d) at 2. apply map_ext. intros v. apply Rmult_1_r.
Qed.

(** ** The forward pass without dropout, in closed form *)

Section ForwardClosedForm.
Context {F : Engine} {I : lowrank_multivariate_gaussian.exports}.

Lemma make_no_dropout params dropout_rate name param_dim :
  ~ 0 < dropout_rate ->
  GPArgProj.make params dropout_rate name param_dim =
  [LDense {| units := param_dim;
             prefix := "distr_" ++ name ++ "_";
             weight := fst (params name);
             bias := snd (params name) |}].
Proof.
  intros H. unfold GPArgProj.make. now destruct (Rlt_dec 0 dropout_rate).
Qed.

Lemma net_forward_Dense d x st :
  Dense_ok d (last_dim (shape x)) = true ->
  net_forward [LDense d] x st =
  Ok (NDArray (lead (shape x) ++ [Z.to_nat (units d)])
              (flat_map (Dense_row d) (rows x)), st).
Proof.
  intros H. simpl. unfold bind, lift, ret.
  now rewrite (Dense_forward_Ok _ _ H).
Qed.

Lemma flat_map_singleton {A B} (f : A -> B) (l : list A) :
  flat_map (fun a => [f a]) l = map f l.
Proof. induction l as [|a l IH]; simpl; congruence. Qed.

(** For features of shape [(..., hidden)] and parameters of the shapes
    the three layers declare, the forward pass returns, and its three
    results are given row by row by the formulas of the
    specification. *)
Lemma hybrid_forward_closed_form
      params rank sigma_init sigma_minimum mu_ratio dropout_rate self
      wm bm ws bs Ww bw x st :
  GPArgProj.init params rank sigma_init sigma_minimum mu_ratio dropout_rate
  = Ok self ->
  ~ 0 < default 0 dropout_rate ->
  params "mu"%string = ([wm], [bm]) ->
  params "sigma"%string = ([ws], [bs]) ->
  params "w"%string = (Ww, bw) ->
  length wm = last_dim (shape x) ->
  length ws = S (last_dim (shape x)) ->
  (1 <= rank)%Z ->
  length Ww = Z.to_nat rank ->
  length bw = Z.to_nat rank ->
  Forall (fun w => length w = last_dim (shape x)) Ww ->
  wf x -> shape x <> [] ->
  GPArgProj.hybrid_forward self x st =
  Ok (NDArray (at_least_1d (lead (shape x)))
              (map (mu_of_row wm bm (GPArgProj.mu_ratio self)) (rows x)),
      NDArray (at_least_1d (lead (shape x)))
              (map (D_of_row ws bs Ww bw (GPArgProj.d_bias self)
                             (GPArgProj.sigma_minimum self)) (rows x)),
      NDArray (lead (shape x) ++ [Z.to_nat rank])
              (flat_map (w_projection Ww bw) (rows x)),
      st).
Proof.
  intros Hinit Hdr Pm Ps Pw Lwm Lws Hrank LWw Lbw FWw Wx Nx.
  injection Hinit as <-.
  set (h := last_dim (shape x)) in *.
  set (dm := {| units := 1; prefix := "distr_mu_";
                weight := [wm]; bias := [bm] |}).
  set (dsg := {| units := 1; prefix := "distr_sigma_";
                 weight := [ws]; bias := [bs] |}).
  set (dw := {| units := rank; prefix := "distr_w_";
                weight := Ww; bias := bw |}).
  assert (Okm : Dense_ok dm h = true).
  { apply Dense_ok_spec. simpl. repeat split; auto; lia. }
  assert (Oks : Dense_ok dsg (S h) = true).
  { apply Dense_ok_spec. simpl. repeat split; auto; lia. }
  assert (Okw : Dense_ok dw h = true).
  { apply Dense_ok_spec. simpl. repeat split; auto. }
  assert (Rw : forall xr, Dense_row dw xr = w_projection Ww bw xr) by reflexivity.
  set (Wm := NDArray (lead (shape x) ++ [Z.to_nat rank])
                     (flat_map (w_projection Ww bw) (rows x))).
  assert (RW : rows Wm = map (w_projection Ww bw) (rows x)).
  { apply (rows_Dense dw x Okw). }
  set (xw := NDArray (lead (shape x) ++ [(h + 1)%nat])
                     (concat (map2 (fun xr wr => xr ++ [Rsum (map Rsqr wr)])
                                   (rows x) (rows Wm)))).
  assert (Rxw : rows xw =
                map (fun xr => xr ++ [Rsum (map Rsqr (w_projection Ww bw xr))])
                    (rows x)).
  { unfold xw. rewrite RW, map2_diag, <- flat_map_concat_map.
    apply rows_build; [apply rows_length|].
    eapply Forall_impl; [|apply (rows_block_length Wx Nx)].
    intros r Hr. simpl in Hr. rewrite length_app, Hr. reflexivity. }
  apply hybrid_forward_steps. simpl GPArgProj.proj.
  rewrite !make_no_dropout by assumption. rewrite Pm, Ps, Pw. simpl fst; simpl snd.
  fold dm dsg dw.
  exists [LDense dm], [LDense dsg], [LDense dw].
  exists (NDArray (lead (shape x) ++ [1%nat]) (flat_map (Dense_row dm) (rows x))).
  exists (NDArray (lead (shape xw) ++ [1%nat]) (flat_map (Dense_row dsg) (rows xw))).
  exists st, st, xw.
  split; [reflexivity|]. split; [reflexivity|]. split; [reflexivity|].
  split; [apply (net_forward_Dense dm x st Okm)|].
  split.
  { exists Wm. split; [apply (net_forward_Dense dw x st Okw)|].
    simpl GPArgProj.W_ratio. now rewrite nd_map_mult_1. }
  split.
  { rewrite concat_x_sum_sq. unfold Wm at 1. simpl shape. rewrite lead_snoc.
    destruct (list_eq_dec Nat.eq_dec (lead (shape x)) (lead (shape x)));
      [reflexivity | contradiction]. }
  split.
  { apply (net_forward_Dense dsg xw st).
    unfold xw; simpl shape. rewrite last_dim_snoc.
    replace (h + 1)%nat with (S h) by lia. exact Oks. }
  split; [simpl; apply last_dim_snoc|].
  split; [simpl; apply last_dim_snoc|].
  split.
  - simpl shape. rewrite lead_snoc. f_equal. simpl data.
    unfold Dense_row; simpl. rewrite flat_map_singleton, map_map. reflexivity.
  - simpl shape. rewrite !lead_snoc. f_equal. simpl data.
    rewrite Rxw. unfold Dense_row; simpl.
    rewrite flat_map_singleton, !map_map. reflexivity.
Qed.
End ForwardClosedForm.

(** ** The GP projector *)

(** C1.  Every entry of the diagonal [D] returned by the forward pass of
    the GP projector is strictly above the floor [sigma_minimum], whatever
    the features, the weights and the hyperparameters; and every entry of
    the sigma returned by the diagonal variant's [domain_map] is strictly
    positive, whatever the raw input. *)
Theorem projector_diagonal_above_floor
        (F : Engine) (I : lowrank_multivariate_gaussian.exports)
        (self : GPArgProj.t) (x : ndarray) (st st' : rng)
        (mu D W raw_mu raw_sigma : ndarray) :
  GPArgProj.hybrid_forward self x st = Ok (mu, D, W, st') ->
  Forall (fun d => GPArgProj.sigma_minimum self < d) (data D)
  /\ Forall (fun s => 0 < s)
            (data (snd (MultivariateIndependentGaussianOutput.domain_map
                          raw_mu raw_sigma))).
Proof.
  intros H. split.
  - apply hybrid_forward_steps in H
      as (p0 & p1 & p2 & y0 & y1 & st1 & st2 & xw
          & _ & _ & _ & _ & _ & _ & _ & _ & _ & _ & ->).
    simpl. apply Forall_forall. intros d Hd.
    apply in_map_iff in Hd as (v & <- & _).
    pose proof (softrelu_pos (v + GPArgProj.d_bias self)). lra.
  - simpl. apply Forall_forall. intros s Hs.
    apply in_map_iff in Hs as (v & <- & _). apply softrelu_pos.
Qed.

Lemma projector_diagonal_above_floor_witness :
  exists self mu D W,
    GPArgProj.init (I := reference_exports) params0 1 None None None None = Ok self
    /\ GPArgProj.hybrid_forward (F := inference_engine) (I := reference_exports)
                                self x0 tt = Ok (mu, D, W, tt)
    /\ Forall (fun d => GPArgProj.sigma_minimum self < d) (data D)
    /\ Forall (fun s => 0 < s)
              (data (snd (MultivariateIndependentGaussianOutput.domain_map x0 x0))).
Proof.
  unshelve epose proof
    (hybrid_forward_closed_form (F := inference_engine) (I := reference_exports)
       (params := params0) (wm := [1; 0]) (bm := 0) (ws := [0; 0; 1]) (bs := 0)
       (Ww := [[1; 1]]) (bw := [0]) (x := x0) tt
       (eq_refl : GPArgProj.init params0 1 None None None None = Ok _)
       _ eq_refl eq_refl eq_refl eq_refl eq_refl _ eq_refl eq_refl _ eq_refl _) as H.
  - simpl; lra.
  - lia.
  - repeat constructor.
  - discriminate.
  - eexists _, _, _, _.
    split; [reflexivity|].
    split; [exact H|].
    exact (@projector_diagonal_above_floor inference_engine reference_exports
             _ x0 tt tt _ _ _ x0 x0 H).
Defined.

(** For a projector built by [__init__] and every input [x], with or
    without dropout, the
    forward pass returns [(mu, D, W)] exactly when: [W] is what the w
    projection returns on [x]; [mu] is what the mu projection returns on
    [x], squeezed and multiplied by [mu_ratio]; and [D] is
    softplus(s + bias) + sigma_minimum, where [s] is what the sigma
    projection returns on [x] extended along its last axis by one entry
    per row, the sum of squares of that row of [W], and where bias is
    inv_softplus(sigma_init^2) when sigma_init is not 0, and 0 otherwise.
    Each projection is the net [make] builds for it: a dense layer,
    followed by dropout when [dropout_rate > 0]. *)
Lemma hybrid_forward_projections
        (F : Engine) (I : lowrank_multivariate_gaussian.exports)
        (params : string -> list (list R) * list R) (rank : Z)
        (sigma_init sigma_minimum mu_ratio dropout_rate : option R)
        (self : GPArgProj.t) (x : ndarray) (st st' : rng) (mu D W : ndarray) :
  GPArgProj.init params rank sigma_init sigma_minimum mu_ratio dropout_rate
  = Ok self ->
  let projection := GPArgProj.make params (default 0 dropout_rate) in
  let bias :=
    if Req_dec_T (GPArgProj.sigma_init self) 0 then 0
    else lowrank_multivariate_gaussian.inv_softplus (GPArgProj.sigma_init self ^ 2) in
  GPArgProj.hybrid_forward self x st = Ok (mu, D, W, st') <->
  exists m s st1 st2,
    net_forward (projection "mu"%string 1%Z) x st = Ok (m, st1)
    /\ net_forward (projection "w"%string rank) x st1 = Ok (W, st2)
    /\ lead (shape x) = lead (shape W)
    /\ net_forward (projection "sigma"%string 1%Z)
         (NDArray (lead (shape x) ++ [(last_dim (shape x) + 1)%nat])
                  (concat (map2 (fun xr wr => xr ++ [Rsum (map Rsqr wr)])
                                (rows x) (rows W))))
         st2 = Ok (s, st')
    /\ last_dim (shape m) = 1%nat
    /\ last_dim (shape s) = 1%nat
    /\ mu = NDArray (at_least_1d (lead (shape m)))
                    (map (fun v => v * GPArgProj.mu_ratio self) (data m))
    /\ D = NDArray (at_least_1d (lead (shape s)))
                   (map (fun v => softrelu (v + bias) + GPArgProj.sigma_minimum self)
                        (data s)).
Proof.
  intros Hinit projection bias. injection Hinit as <-.
  rewrite hybrid_forward_steps. simpl GPArgProj.proj.
  fold projection. unfold GPArgProj.d_bias. fold bias.
  simpl GPArgProj.W_ratio. simpl GPArgProj.mu_ratio.
  simpl GPArgProj.sigma_minimum. unfold getitem; simpl nth_error.
  split.
  - intros (p0 & p1 & p2 & y0 & y1 & st1 & st2 & xw
            & [= <-] & [= <-] & [= <-] & Hy0 & (y2 & Hy2 & ->) & Hc & Hy1
            & Lm & Ld & -> & ->).
    rewrite nd_map_mult_1 in *.
    rewrite concat_x_sum_sq in Hc.
    destruct (list_eq_dec Nat.eq_dec (lead (shape x)) (lead (shape y2)))
      as [E|E]; [|discriminate].
    injection Hc as <-.
    exists y0, y1, st1, st2. repeat split; auto.
  - intros (m & s & st1 & st2 & Hm & HW & E & Hs & Lm & Ls & -> & ->).
    exists (projection "mu"%string 1%Z), (projection "sigma"%string 1%Z),
      (projection "w"%string rank), m, s, st1, st2.
    exists (NDArray (lead (shape x) ++ [(last_dim (shape x) + 1)%nat])
                    (concat (map2 (fun xr wr => xr ++ [Rsum (map Rsqr wr)])
                                  (rows x) (rows W)))).
    split; [reflexivity|]. split; [reflexivity|]. split; [reflexivity|].
    split; [exact Hm|].
    split; [exists W; split; [exact HW | now rewrite nd_map_mult_1]|].
    split.
    { rewrite concat_x_sum_sq.
      destruct (list_eq_dec Nat.eq_dec (lead (shape x)) (lead (shape W)));
        [reflexivity | contradiction]. }
    split; [exact Hs|].
    repeat split; assumption.
Qed.

(** ** The independent Gaussian: log density *)

Lemma skipn_combine {A B} n (l1 : list A) (l2 : list B) :
  skipn n (combine l1 l2) = combine (skipn n l1) (skipn n l2).
Proof.
  revert l1 l2; induction n as [|n IH]; intros l1 l2; [reflexivity|].
  destruct l1 as [|a l1]; [reflexivity|].
  destruct l2 as [|b l2]; simpl; [|apply IH].
  now destruct (skipn n l1).
Qed.

Lemma log_prob_entries (dx dm ds : list R) :
  map2 Rplus (map (fun v => v + 1 / 2 * ln (2 * PI)) (map ln ds))
       (map (fun v => 1 / 2 * v)
            (map Rsqr (map2 Rdiv (map2 Rminus dx dm) ds)))
  = map log_term (combine (combine dx dm) ds).
Proof.
  revert dm ds; induction dx as [|x dx IH]; intros dm ds.
  - simpl. now destruct ds.
  - destruct dm as [|m dm]; [simpl; now destruct ds|].
    destruct ds as [|s ds]; [reflexivity|].
    simpl. rewrite IH, Rsqr_pow2. reflexivity.
Qed.

Lemma log_prob_rows n k (dx dm ds : list R) :
  map (fun v => -1 * v)
      (map Rsum (chunks n k (map log_term (combine (combine dx dm) ds))))
  = map (fun '(xr, mr, sr) => log_density xr mr sr)
        (combine (combine (chunks n k dx) (chunks n k dm)) (chunks n k ds)).
Proof.
  revert dx dm ds; induction k as [|k IH]; intros dx dm ds; [reflexivity|].
  simpl. f_equal.
  - rewrite firstn_map, !combine_firstn. unfold log_density.
    change (fun '(x_d, mu_d, sigma_d) =>
              ln sigma_d + 1 / 2 * ln (2 * PI)
              + 1 / 2 * ((x_d - mu_d) / sigma_d) ^ 2) with log_term.
    unfold Rsum. lra.
  - rewrite skipn_map, !skipn_combine. apply IH.
Qed.

(** Between arrays of one shape, [log_prob] sums [log_term] along the
    trailing axis and changes the sign. *)
Lemma log_prob_same_shape (mu sigma x : ndarray) (dim : option Z) :
  wf mu -> wf sigma -> wf x ->
  shape sigma = shape mu -> shape x = shape mu ->
  MultivariateIndependentGaussian.log_prob
    (MultivariateIndependentGaussian.init mu sigma dim) x
  = Ok (nd_map (fun v => -1 * v)
               (sum_last false
                  (NDArray (shape mu)
                           (map log_term
                                (combine (combine (data x) (data mu))
                                         (data sigma)))))).
Proof.
  intros Wm Ws Wx Es Ex.
  destruct mu as [s dm], sigma as [s' ds], x as [s'' dx].
  simpl in Es, Ex. subst s' s''. unfold wf in Wm, Ws, Wx. simpl in Wm, Ws, Wx.
  unfold MultivariateIndependentGaussian.log_prob,
    MultivariateIndependentGaussian.init. simpl.
  rewrite (@broadcast_op_same Rminus (NDArray s dx) (NDArray s dm)) by easy.
  simpl.
  rewrite (@broadcast_op_same Rdiv (NDArray s (map2 Rminus dx dm)) (NDArray s ds));
    [| apply wf_map2; assumption | exact Ws | reflexivity].
  simpl.
  rewrite broadcast_op_same;
    [| apply wf_nd_map, wf_nd_map; exact Ws
     | apply wf_nd_map, wf_nd_map, wf_map2;
       [rewrite map2_length; simpl; lia | exact Ws]
     | reflexivity].
  simpl. now rewrite log_prob_entries.
Qed.

(** C3.  For well-formed [mu], [sigma] and [x] of one shape and [sigma]
    strictly positive, [log_prob(x)] returns, for every row along the
    trailing (event) axis, minus the sum over the coordinates [d] of
    log(sigma_d) + 0.5 log(2 pi) + 0.5 ((x_d - mu_d) / sigma_d)^2. *)
Theorem log_prob_formula (mu sigma x : ndarray) (dim : option Z) :
  wf mu -> wf sigma -> wf x ->
  shape sigma = shape mu -> shape x = shape mu ->
  Forall (fun s => 0 < s) (data sigma) ->
  MultivariateIndependentGaussian.log_prob
    (MultivariateIndependentGaussian.init mu sigma dim) x
  = Ok (NDArray (at_least_1d (lead (shape mu)))
                (map (fun '(xr, mr, sr) => log_density xr mr sr)
                     (combine (combine (rows x) (rows mu)) (rows sigma)))).
Proof.
  intros Wm Ws Wx Es Ex _.
  rewrite log_prob_same_shape by assumption.
  unfold sum_last, nd_map, rows. simpl. rewrite Es, Ex.
  now rewrite log_prob_rows.
Qed.

Lemma log_prob_formula_witness :
  MultivariateIndependentGaussian.log_prob
    (MultivariateIndependentGaussian.init
       (NDArray [2%nat; 2%nat] [0; 0; 0; 0])
       (NDArray [2%nat; 2%nat] [1; 1; 2; 2]) None) x0
  = Ok (NDArray [2%nat]
                [log_density [1; 2] [0; 0] [1; 1];
                 log_density [3; 4] [0; 0] [2; 2]]).
Proof.
  apply (@log_prob_formula (NDArray [2%nat; 2%nat] [0; 0; 0; 0])
           (NDArray [2%nat; 2%nat] [1; 1; 2; 2]) x0 None);
    try reflexivity.
  repeat constructor; lra.
Defined.

(** ** The independent Gaussian: shapes *)

(** C4.  On parameters of shape [(2, 3)], that is a batch of two
    observations over three coordinates, [batch_shape] is the whole shape
    [(2, 3)] and [event_shape] is [(2,)], the leading axis, while
    [log_prob] returns an array of shape [(2,)]: neither is [event_shape]
    the trailing axis [(3,)], nor is [batch_shape] the shape of what
    [log_prob] returns. *)
Theorem shapes_of_a_batch :
  let d := MultivariateIndependentGaussian.init mu23 sigma23 (Some 3%Z) in
  MultivariateIndependentGaussian.batch_shape d = [2%nat; 3%nat]
  /\ MultivariateIndependentGaussian.event_shape d = [2%nat]
  /\ MultivariateIndependentGaussian.event_dim d = 1%Z
  /\ exists lp,
      MultivariateIndependentGaussian.log_prob d mu23 = Ok lp
      /\ shape lp = [2%nat].
Proof.
  simpl. repeat split.
  eexists. split.
  - apply (@log_prob_same_shape mu23 sigma23 mu23 (Some 3%Z)); reflexivity.
  - reflexivity.
Qed.

(** ** The independent Gaussian: distribution function *)

(** C5.  [cdf] raises an [AttributeError] on every distribution and every
    [x]: its first statement reads [self.F], which [__init__] never sets.
    The erf identity of the lines that follow is never evaluated, so
    [cdf(mu)] is not 0.5 and no value of [cdf] is compared with
    another. *)
Theorem cdf_raises_on_every_input
        (erf : R -> R) (self : MultivariateIndependentGaussian.t) (x : ndarray) :
  MultivariateIndependentGaussian.getattr self "F" = Raise AttributeError
  /\ MultivariateIndependentGaussian.cdf erf self x = Raise AttributeError
  /\ MultivariateIndependentGaussian.cdf erf
       (MultivariateIndependentGaussian.init mu23 sigma23 (Some 3%Z)) mu23
     <> Ok (NDArray [2%nat; 3%nat] [1 / 2; 1 / 2; 1 / 2; 1 / 2; 1 / 2; 1 / 2]).
Proof.
  split; [reflexivity|]. split; [reflexivity|].
  unfold MultivariateIndependentGaussian.cdf. simpl. discriminate.
Qed.

(** The forward pass on the example input: rows [1; 2] and [3; 4] give
    the locations 1 and 3, the factors 3 and 7, and a diagonal computed
    from their squares 9 and 49. *)
Example hybrid_forward_example :
  exists self,
    GPArgProj.init (I := reference_exports) params0 1 None None None None = Ok self
    /\ GPArgProj.hybrid_forward (F := inference_engine) (I := reference_exports)
                                self x0 tt
       = Ok (NDArray [2%nat] [1; 3],
             NDArray [2%nat]
                     [softrelu (9 + ln (exp (1 ^ 2) - 1)) + 1 / 1000;
                      softrelu (49 + ln (exp (1 ^ 2) - 1)) + 1 / 1000],
             NDArray [2%nat; 1%nat] [3; 7],
             tt).
Proof.
  eexists. split; [reflexivity|].
  rewrite (hybrid_forward_closed_form (F := inference_engine)
             (I := reference_exports) (params := params0)
             (wm := [1; 0]) (bm := 0) (ws := [0; 0; 1]) (bs := 0)
             (Ww := [[1; 1]]) (bw := [0]) (x := x0) tt eq_refl);
    try reflexivity; try (simpl; lra); try lia; try discriminate;
    [|repeat constructor].
  unfold GPArgProj.d_bias. simpl GPArgProj.sigma_init.
  destruct (Req_dec_T 1 0) as [E|_]; [lra|].
  unfold mu_of_row, D_of_row, w_projection, dot, Rsum, Rsqr. simpl.
  repeat f_equal; try ring.
Qed.

(** ** Construction of the projector *)

(** C6, as stated, fails: a projector with a negative [sigma_minimum] is
    constructed, no [ConfigurationError] is raised. *)
Lemma init_accepts_negative_floor :
  ~ (forall (I : lowrank_multivariate_gaussian.exports)
            (params : string -> list (list R) * list R) (rank : Z)
            (sigma_init sigma_minimum mu_ratio dropout_rate : option R),
        (rank < 1)%Z
        \/ ~ (0 <= default 0 dropout_rate < 1)
        \/ default lowrank_multivariate_gaussian.sigma_minimum sigma_minimum < 0 ->
        GPArgProj.init params rank sigma_init sigma_minimum mu_ratio dropout_rate
        = Raise ConfigurationError).
Proof.
  intros H.
  specialize (H reference_exports params0 1%Z None (Some (-1)) None None).
  simpl in H. discriminate H. right. right. lra.
Qed.

(** C6, amended.  [__init__] checks no range: for every rank, sigma_init,
    sigma_minimum, mu_ratio and dropout_rate it returns a projector, never
    a [ConfigurationError]; the projector holds the values as given (the
    defaults for those not passed), its three nets are those [make]
    builds, and a net ends in a dropout layer exactly when
    [dropout_rate > 0]. *)
Theorem init_checks_no_range
        (I : lowrank_multivariate_gaussian.exports)
        (params : string -> list (list R) * list R) (rank : Z)
        (sigma_init sigma_minimum mu_ratio dropout_rate : option R) :
  exists self,
    GPArgProj.init params rank sigma_init sigma_minimum mu_ratio dropout_rate
    = Ok self
    /\ GPArgProj.rank self = rank
    /\ GPArgProj.sigma_init self = default 1 sigma_init
    /\ GPArgProj.sigma_minimum self
       = default lowrank_multivariate_gaussian.sigma_minimum sigma_minimum
    /\ GPArgProj.mu_ratio self = default 1 mu_ratio
    /\ GPArgProj.proj self
       = [GPArgProj.make params (default 0 dropout_rate) "mu" 1;
          GPArgProj.make params (default 0 dropout_rate) "sigma" 1;
          GPArgProj.make params (default 0 dropout_rate) "w" rank]
    /\ forall name param_dim,
        In (LDropout (default 0 dropout_rate))
           (GPArgProj.make params (default 0 dropout_rate) name param_dim)
        <-> 0 < default 0 dropout_rate.
Proof.
  eexists. split; [reflexivity|]. simpl. repeat split; try reflexivity.
  - unfold GPArgProj.make.
    destruct (Rlt_dec 0 (default 0 dropout_rate)) as [H|H]; [auto|].
    intros [E|[]]. discriminate E.
  - intros H. unfold GPArgProj.make.
    destruct (Rlt_dec 0 (default 0 dropout_rate)); [|contradiction].
    simpl. auto.
Qed.

(** ** The output adapter *)

(** C7.  [distribution(distr_args, scale)] returns the bare
    [LowrankMultivariateGaussian] built from the arguments when [scale] is
    [None], and otherwise that same distribution wrapped in a
    [TransformedDistribution] with one affine transformation whose scale
    is the given tensor. *)
Theorem distribution_rescaled
        (self : LowrankGPOutput.t) (distr_args : list ndarray) (dim : option Z) :
  LowrankGPOutput.distribution self distr_args None dim
  = LowrankMultivariateGaussian (LowrankGPOutput.rank self) distr_args dim
  /\ forall scale,
      LowrankGPOutput.distribution self distr_args (Some scale) dim
      = TransformedDistribution
          (LowrankGPOutput.distribution self distr_args None dim)
          [AffineTransformation None (Some scale)].
Proof. split; [reflexivity | intros scale; reflexivity]. Qed.

(** C9.  [get_args_proj] calls the projector's constructor with rank,
    mu_ratio, sigma_init and dropout_rate and without a sigma_minimum;
    whatever the adapter's configuration, the projector it returns has
    the module's default [sigma_minimum] as its floor. *)
Theorem get_args_proj_floor
        (I : lowrank_multivariate_gaussian.exports)
        (params : string -> list (list R) * list R) (self : LowrankGPOutput.t) :
  LowrankGPOutput.get_args_proj params self
  = GPArgProj.init params (LowrankGPOutput.rank self)
                   (Some (LowrankGPOutput.sigma_init self)) None
                   (Some (LowrankGPOutput.mu_ratio self))
                   (Some (LowrankGPOutput.dropout_rate self))
  /\ exists proj,
      LowrankGPOutput.get_args_proj params self = Ok proj
      /\ GPArgProj.sigma_minimum proj = lowrank_multivariate_gaussian.sigma_minimum
      /\ GPArgProj.rank proj = LowrankGPOutput.rank self
      /\ GPArgProj.mu_ratio proj = LowrankGPOutput.mu_ratio self
      /\ GPArgProj.sigma_init proj = LowrankGPOutput.sigma_init self.
Proof.
  split; [reflexivity|].
  eexists. split; [reflexivity|]. repeat split.
Qed.

(** ** The independent Gaussian: mean and standard deviation *)

Lemma map2_app {A B C} (f : A -> B -> C) l1 l1' l2 l2' :
  length l1 = length l2 ->
  map2 f (l1 ++ l1') (l2 ++ l2') = map2 f l1 l2 ++ map2 f l1' l2'.
Proof.
  revert l2; induction l1 as [|a l1 IH]; intros [|b l2] H;
    try discriminate; simpl; auto.
  rewrite IH; auto.
Qed.

Lemma eye_row_length n i : length (eye_row n i) = n.
Proof. unfold eye_row. now rewrite length_map, length_seq. Qed.

(** A row of the identity selects one entry of [sigma]. *)
Lemma scale_eye_row i (ds : list R) b :
  map2 Rmult ds (map (fun j => if (i =? j)%nat then 1 else 0) (seq b (length ds)))
  = map (fun j => if (i =? j)%nat then nth (j - b) ds 0 else 0) (seq b (length ds)).
Proof.
  revert b; induction ds as [|s ds IH]; intros b; [reflexivity|].
  simpl. f_equal.
  - rewrite Nat.sub_diag. destruct (i =? b)%nat; ring.
  - rewrite IH. apply map_ext_in. intros j Hj. apply in_seq in Hj.
    destruct (i =? j)%nat; [|reflexivity].
    replace (j - b)%nat with (S (j - S b)) by lia. reflexivity.
Qed.

Lemma scale_eye_rows (ds : list R) a k :
  map2 Rmult (concat (repeat ds k)) (flat_map (eye_row (length ds)) (seq a k))
  = flat_map (fun i => map2 Rmult ds (eye_row (length ds) i)) (seq a k).
Proof.
  revert a; induction k as [|k IH]; intros a; [reflexivity|].
  simpl. rewrite map2_app by now rewrite eye_row_length.
  now rewrite IH.
Qed.

Lemma scale_eye (ds : list R) :
  map2 Rmult (concat (repeat ds (length ds)))
       (flat_map (eye_row (length ds)) (seq 0 (length ds)))
  = diag ds.
Proof.
  rewrite scale_eye_rows. unfold diag.
  apply flat_map_ext. intros i. unfold eye_row. rewrite scale_eye_row.
  apply map_ext_in. intros j _.
  destruct (Nat.eqb_spec i j) as [->|]; [|reflexivity].
  now rewrite Nat.sub_0_r.
Qed.

Lemma broadcast_shape_vector_matrix n :
  broadcast_shape [n] [n; n] = Some [n; n].
Proof.
  unfold broadcast_shape, pad. simpl. rewrite Nat.eqb_refl.
  destruct n as [|[|n]]; reflexivity.
Qed.

Lemma bcast_cons a s b s' d :
  bcast (a :: s) (b :: s') d =
  if (a =? b)%nat then flat_map (bcast s s') (chunks (size s) a d)
  else concat (repeat (bcast s s' d) b).
Proof. reflexivity. Qed.

(** A vector against a square matrix: the vector once per row. *)
Lemma broadcast_to_rows (ds : list R) :
  broadcast_to [length ds; length ds] (NDArray [length ds] ds)
  = concat (repeat ds (length ds)).
Proof.
  unfold broadcast_to, pad. simpl shape. simpl data. simpl length.
  change (repeat 1%nat (2 - 1) ++ [length ds]) with [1%nat; length ds].
  rewrite bcast_cons.
  assert (Hs : size [length ds] = length ds) by (simpl; lia).
  destruct (Nat.eqb_spec 1 (length ds)) as [E|E].
  - rewrite flat_map_id_on.
    + rewrite concat_chunks by (rewrite Hs; lia). now rewrite <- E; simpl; rewrite app_nil_r.
    + eapply Forall_impl;
        [|apply (@chunks_block_length _ (size [length ds]) 1 ds); rewrite Hs; lia].
      intros c Hc. simpl in Hc. now apply bcast_same.
  - now rewrite bcast_same.
Qed.

Lemma eye_of_nat n :
  (1 <= n)%nat ->
  eye (Z.of_nat n) = Ok (NDArray [n; n] (flat_map (eye_row n) (seq 0 n))).
Proof.
  intros H. unfold eye.
  replace (1 <=? Z.of_nat n)%Z with true by (symmetry; apply Z.leb_le; lia).
  now rewrite Nat2Z.id.
Qed.

Lemma wf_eye n : wf (NDArray [n; n] (flat_map (eye_row n) (seq 0 n))).
Proof.
  unfold wf. simpl. rewrite (@flat_map_length_const _ _ _ n).
  - rewrite length_seq. lia.
  - apply Forall_forall. intros i _. apply eye_row_length.
Qed.

(** Where [sigma] is a single vector of [dim] entries, [stddev] is the
    square matrix with [sigma] on its diagonal. *)
Lemma stddev_of_vector (mu : ndarray) (ds : list R) :
  ds <> [] ->
  MultivariateIndependentGaussian.stddev
    (MultivariateIndependentGaussian.init
       mu (NDArray [length ds] ds) (Some (Z.of_nat (length ds))))
  = Ok (NDArray [length ds; length ds] (diag ds)).
Proof.
  intros Hne.
  assert (Hn : (1 <= length ds)%nat) by (destruct ds; [contradiction | simpl; lia]).
  unfold MultivariateIndependentGaussian.stddev,
    MultivariateIndependentGaussian.init.
  simpl MultivariateIndependentGaussian.dim.
  simpl MultivariateIndependentGaussian.sigma.
  cbv iota beta.
  rewrite (eye_of_nat Hn). unfold rbind, broadcast_op. simpl shape.
  rewrite broadcast_shape_vector_matrix, broadcast_to_rows.
  pose proof (broadcast_to_same (wf_eye (length ds))) as He.
  simpl shape in He. rewrite He. simpl data.
  now rewrite scale_eye.
Qed.

(** C8.  [mean] returns [mu] as it is.  [stddev], on the batch of two
    observations over three coordinates built with [dim = 3], raises: the
    shapes [(2, 3)] and [(3, 3)] do not broadcast.  On a batch of two
    observations over two coordinates built with [dim = 2] it returns one
    2 x 2 matrix whose diagonal takes its first entry from the first
    observation and its second entry from the second one. *)
Theorem stddev_of_a_batch :
  MultivariateIndependentGaussian.mean
    (MultivariateIndependentGaussian.init mu23 sigma23 (Some 3%Z)) = mu23
  /\ MultivariateIndependentGaussian.stddev
       (MultivariateIndependentGaussian.init mu23 sigma23 (Some 3%Z))
     = Raise MXNetError
  /\ MultivariateIndependentGaussian.stddev
       (MultivariateIndependentGaussian.init sigma22 sigma22 (Some 2%Z))
     = Ok (NDArray [2%nat; 2%nat] [1; 0; 0; 4]).
Proof.
  split; [reflexivity|]. split; [reflexivity|].
  unfold MultivariateIndependentGaussian.stddev,
    MultivariateIndependentGaussian.init.
  simpl MultivariateIndependentGaussian.dim.
  simpl MultivariateIndependentGaussian.sigma. cbv iota beta.
  change (eye 2) with (eye (Z.of_nat 2)).
  rewrite (@eye_of_nat 2) by lia. unfold rbind.
  rewrite broadcast_op_same; [| reflexivity | apply wf_eye | reflexivity].
  simpl. repeat f_equal; ring.
Qed.

(** C10.  Built without [dim], the distribution answers [mean],
    [batch_shape], [event_shape] and [event_dim], and [log_prob], [sample]
    and [sample_rep] give what they give with any [dim]; on the batch of
    two observations over three coordinates [log_prob] returns an array
    of two entries and, with the example engine, [sample] and
    [sample_rep] return a draw.  [stddev] raises when [dim] is [None],
    and what it returns depends on [dim].  [cdf] however is not defined:
    with or without [dim] it raises an [AttributeError], as it reads
    [self.F]. *)
Theorem operations_without_dim
        (E : Engine) (erf : R -> R) (mu sigma x : ndarray)
        (dim num_samples : option Z) (st : rng) :
  let d0 := MultivariateIndependentGaussian.init mu sigma None in
  let d := MultivariateIndependentGaussian.init mu sigma dim in
  let b0 := MultivariateIndependentGaussian.init mu23 sigma23 None in
  (MultivariateIndependentGaussian.mean d0 = mu
   /\ MultivariateIndependentGaussian.batch_shape d0 = shape mu
   /\ MultivariateIndependentGaussian.event_shape d0 = removelast (shape mu)
   /\ MultivariateIndependentGaussian.event_dim d0 = 1%Z)
  /\ (MultivariateIndependentGaussian.log_prob d0 x
      = MultivariateIndependentGaussian.log_prob d x
      /\ MultivariateIndependentGaussian.sample d0 num_samples st
         = MultivariateIndependentGaussian.sample d num_samples st
      /\ MultivariateIndependentGaussian.sample_rep d0 num_samples st
         = MultivariateIndependentGaussian.sample_rep d num_samples st)
  /\ ((exists lp,
         MultivariateIndependentGaussian.log_prob b0 mu23 = Ok lp
         /\ shape lp = [2%nat] /\ length (data lp) = 2%nat)
      /\ @MultivariateIndependentGaussian.sample inference_engine b0 None tt
         = Ok (mu23, tt)
      /\ exists s,
          @MultivariateIndependentGaussian.sample_rep inference_engine
                                                      b0 None tt = Ok (s, tt)
          /\ shape s = [2%nat; 3%nat] /\ length (data s) = 6%nat)
  /\ (MultivariateIndependentGaussian.stddev d0 = Raise MXNetError
      /\ MultivariateIndependentGaussian.stddev
           (MultivariateIndependentGaussian.init x0 (NDArray [1%nat] [1]) (Some 1%Z))
         <> MultivariateIndependentGaussian.stddev
              (MultivariateIndependentGaussian.init x0 (NDArray [1%nat] [1])
                                                    (Some 2%Z)))
  /\ (MultivariateIndependentGaussian.cdf erf d0 x = Raise AttributeError
      /\ MultivariateIndependentGaussian.cdf erf d x = Raise AttributeError).
Proof.
  intros d0 d b0.
  split; [repeat split|]. split; [repeat split|].
  split; [|split; [|split; reflexivity]].
  - split; [|split].
    + eexists. split.
      * apply (@log_prob_same_shape mu23 sigma23 mu23 None); reflexivity.
      * split; reflexivity.
    + reflexivity.
    + unfold b0, MultivariateIndependentGaussian.sample_rep,
        MultivariateIndependentGaussian.init, sample_multiple, bind, lift.
      simpl expand_param. cbv iota beta.
      change (@sample_normal inference_engine (zeros_like mu23)
                             (ones_like sigma23) tt)
        with (@Ok (ndarray * unit) (zeros_like mu23, tt)).
      cbv iota beta.
      rewrite (@broadcast_op_same Rmult sigma23 (zeros_like mu23))
        by reflexivity.
      rewrite broadcast_op_same by reflexivity.
      eexists. split; [reflexivity|]. split; reflexivity.
  - split; [reflexivity|].
    intros H.
    apply (f_equal (fun r => match r with
                             | Ok t => shape t
                             | Raise _ => []
                             end)) in H.
    discriminate H.
Qed.

(** * Further properties of the code *)

(** ** The forward pass: shapes and failures *)

Lemma size_at_least_1d s : size (at_least_1d s) = size s.
Proof. now destruct s. Qed.

Lemma make_head params dropout_rate name param_dim :
  GPArgProj.make params dropout_rate name param_dim =
  LDense {| units := param_dim;
            prefix := "distr_" ++ name ++ "_";
            weight := fst (params name);
            bias := snd (params name) |}
  :: (if Rlt_dec 0 dropout_rate then [LDropout dropout_rate] else []).
Proof.
  unfold GPArgProj.make. now destruct (Rlt_dec 0 dropout_rate).
Qed.

Lemma net_forward_Dense_fails {F : Engine} d net x st :
  Dense_ok d (last_dim (shape x)) = false ->
  net_forward (LDense d :: net) x st = Raise MXNetError.
Proof.
  intros H. simpl. unfold bind, lift, Dense_forward. now rewrite H.
Qed.

(** X1.  For features of shape [(..., hidden)] and layers holding
    parameters of the shapes they declare, without dropout, the forward
    pass returns and leaves the generator as it was; [mu] and [D] have the
    leading shape of [x], [W] has that shape followed by the rank, the
    three arrays are well formed, and their entries are given row by row
    of [x] by the projections. *)
Theorem forward_returns_documented_shapes
        (F : Engine) (I : lowrank_multivariate_gaussian.exports)
        (params : string -> list (list R) * list R) (rank : Z)
        (sigma_init sigma_minimum mu_ratio dropout_rate : option R)
        (self : GPArgProj.t)
        (wm : list R) (bm : R) (ws : list R) (bs : R)
        (Ww : list (list R)) (bw : list R) (x : ndarray) (st : rng) :
  GPArgProj.init params rank sigma_init sigma_minimum mu_ratio dropout_rate
  = Ok self ->
  ~ 0 < default 0 dropout_rate ->
  params "mu"%string = ([wm], [bm]) ->
  params "sigma"%string = ([ws], [bs]) ->
  params "w"%string = (Ww, bw) ->
  length wm = last_dim (shape x) ->
  length ws = S (last_dim (shape x)) ->
  (1 <= rank)%Z ->
  length Ww = Z.to_nat rank ->
  length bw = Z.to_nat rank ->
  Forall (fun w => length w = last_dim (shape x)) Ww ->
  wf x -> shape x <> [] ->
  exists mu D W,
    GPArgProj.hybrid_forward self x st = Ok (mu, D, W, st)
    /\ shape mu = at_least_1d (lead (shape x))
    /\ shape D = at_least_1d (lead (shape x))
    /\ shape W = lead (shape x) ++ [Z.to_nat rank]
    /\ wf mu /\ wf D /\ wf W
    /\ data mu = map (mu_of_row wm bm (GPArgProj.mu_ratio self)) (rows x)
    /\ data D = map (D_of_row ws bs Ww bw (GPArgProj.d_bias self)
                              (GPArgProj.sigma_minimum self)) (rows x)
    /\ rows W = map (w_projection Ww bw) (rows x).
Proof.
  intros Hinit Hdr Pm Ps Pw Lwm Lws Hrank LWw Lbw FWw Wx Nx.
  do 3 eexists. split.
  { eapply hybrid_forward_closed_form; eassumption. }
  assert (Lw : forall xr, length (w_projection Ww bw xr) = Z.to_nat rank).
  { intros xr. unfold w_projection. rewrite map2_length. lia. }
  repeat split; try reflexivity.
  - unfold wf. simpl. now rewrite length_map, rows_length, size_at_least_1d.
  - unfold wf. simpl. now rewrite length_map, rows_length, size_at_least_1d.
  - unfold wf. simpl. rewrite size_app.
    rewrite (@flat_map_length_const _ _ _ (Z.to_nat rank)).
    + rewrite rows_length. simpl. lia.
    + apply Forall_forall. intros xr _. apply Lw.
  - apply rows_build; [apply rows_length|].
    apply Forall_forall. intros xr _. apply Lw.
Qed.

Lemma forward_returns_documented_shapes_witness :
  exists self mu D W,
    GPArgProj.init (I := reference_exports) params0 1 None None None None = Ok self
    /\ GPArgProj.hybrid_forward (F := inference_engine) (I := reference_exports)
                                self x0 tt = Ok (mu, D, W, tt)
    /\ shape mu = [2%nat] /\ shape D = [2%nat] /\ shape W = [2%nat; 1%nat]
    /\ wf mu /\ wf D /\ wf W
    /\ data mu = map (mu_of_row [1; 0] 0 (GPArgProj.mu_ratio self)) (rows x0)
    /\ data D = map (D_of_row [0; 0; 1] 0 [[1; 1]] [0]
                              (GPArgProj.d_bias (I := reference_exports) self)
                              (GPArgProj.sigma_minimum self)) (rows x0)
    /\ rows W = map (w_projection [[1; 1]] [0]) (rows x0).
Proof.
  unshelve epose proof
    (@forward_returns_documented_shapes inference_engine reference_exports
       params0 1 None None None None _ [1; 0] 0 [0; 0; 1] 0 [[1; 1]] [0] x0 tt
       eq_refl _ eq_refl eq_refl eq_refl eq_refl eq_refl _ eq_refl eq_refl _
       eq_refl _) as (mu & D & W & H).
  - simpl; lra.
  - lia.
  - repeat constructor.
  - discriminate.
  - eexists _, mu, D, W. split; [reflexivity|]. exact H.
Defined.

(** X2.  A projector built with a rank below 1 is constructed, but its
    forward pass raises on every input: the w layer declares no unit. *)
Theorem forward_raises_below_rank_one
        (F : Engine) (I : lowrank_multivariate_gaussian.exports)
        (params : string -> list (list R) * list R) (rank : Z)
        (sigma_init sigma_minimum mu_ratio dropout_rate : option R)
        (self : GPArgProj.t) (x : ndarray) (st : rng) :
  GPArgProj.init params rank sigma_init sigma_minimum mu_ratio dropout_rate
  = Ok self ->
  (rank < 1)%Z ->
  exists e, GPArgProj.hybrid_forward self x st = Raise e.
Proof.
  intros Hinit Hrank.
  destruct (GPArgProj.hybrid_forward self x st) as [[[[mu D] W] st']|e] eqn:H;
    [|now exists e].
  exfalso. injection Hinit as <-.
  apply hybrid_forward_steps in H
    as (p0 & p1 & p2 & y0 & y1 & st1 & st2 & xw
        & _ & _ & H2 & _ & (y2 & Hy2 & _) & _).
  simpl in H2. injection H2 as <-.
  rewrite make_head, net_forward_Dense_fails in Hy2; [discriminate|].
  unfold Dense_ok. simpl units.
  replace (1 <=? rank)%Z with false by (symmetry; apply Z.leb_gt; lia).
  reflexivity.
Qed.

Lemma forward_raises_below_rank_one_witness :
  exists self e,
    GPArgProj.init (I := reference_exports) params0 0 None None None None = Ok self
    /\ GPArgProj.hybrid_forward (F := inference_engine) (I := reference_exports)
                                self x0 tt = Raise e.
Proof.
  destruct (@forward_raises_below_rank_one inference_engine reference_exports
              params0 0 None None None None _ x0 tt eq_refl eq_refl) as [e H].
  eexists _, e. split; [reflexivity | exact H].
Defined.

(** X3.  Where a row of the mu layer's weight has not as many entries as
    the trailing axis of the features, the forward pass raises an engine
    error at its first step, with or without dropout. *)
Theorem forward_raises_on_width_mismatch
        (F : Engine) (I : lowrank_multivariate_gaussian.exports)
        (params : string -> list (list R) * list R) (rank : Z)
        (sigma_init sigma_minimum mu_ratio dropout_rate : option R)
        (self : GPArgProj.t) (x : ndarray) (st : rng) (w : list R) :
  GPArgProj.init params rank sigma_init sigma_minimum mu_ratio dropout_rate
  = Ok self ->
  In w (fst (params "mu"%string)) ->
  length w <> last_dim (shape x) ->
  GPArgProj.hybrid_forward self x st = Raise MXNetError.
Proof.
  intros Hinit Hw Hlen. injection Hinit as <-.
  unfold GPArgProj.hybrid_forward. simpl GPArgProj.proj.
  unfold getitem at 1. simpl nth_error.
  unfold bind at 1. unfold lift at 1.
  unfold bind at 1.
  rewrite make_head, net_forward_Dense_fails; [reflexivity|].
  unfold Dense_ok. simpl weight.
  apply andb_false_iff. right.
  apply not_true_is_false. intros Hall.
  rewrite forallb_forall in Hall. specialize (Hall w Hw).
  apply Nat.eqb_eq in Hall. contradiction.
Qed.

Lemma forward_raises_on_width_mismatch_witness :
  exists self,
    GPArgProj.init (I := reference_exports) params0 1 None None None None = Ok self
    /\ GPArgProj.hybrid_forward (F := inference_engine) (I := reference_exports)
                                self (NDArray [2%nat; 3%nat] [1; 2; 3; 4; 5; 6]) tt
       = Raise MXNetError.
Proof.
  eexists. split; [reflexivity|].
  apply (@forward_raises_on_width_mismatch inference_engine reference_exports
           params0 1 None None None None _
           (NDArray [2%nat; 3%nat] [1; 2; 3; 4; 5; 6]) tt [1; 0] eq_refl).
  - simpl. auto.
  - unfold last_dim. simpl. lia.
Defined.

(** ** The forward pass: what the hyperparameters do *)

Lemma dot_zeros (l : list R) n : dot l (repeat 0 n) = 0.
Proof.
  unfold dot, Rsum. revert n; induction l as [|a l IH]; intros [|n];
    try reflexivity.
  simpl. rewrite IH. ring.
Qed.

Lemma softrelu_0 : softrelu 0 = ln 2.
Proof. unfold softrelu. rewrite exp_0. now replace (1 + 1) with 2 by lra. Qed.

(** The algebraic inverse of the smooth activation on the positives. *)
Lemma softrelu_inverse y : 0 < y -> softrelu (ln (exp y - 1)) = y.
Proof.
  intros Hy. unfold softrelu.
  assert (H1 : 1 < exp y) by (rewrite <- exp_0; now apply exp_increasing).
  rewrite exp_ln by lra.
  replace (1 + (exp y - 1)) with (exp y) by ring. apply ln_exp.
Qed.

(** X4.  Before training, when the sigma layer holds zeros, every entry
    of [D] is sigma_init^2 + sigma_minimum, provided [inv_softplus]
    inverts the activation at sigma_init^2; with sigma_init = 0 no bias is
    added and every entry is log 2 + sigma_minimum. *)
Theorem untrained_diagonal
        (F : Engine) (I : lowrank_multivariate_gaussian.exports)
        (params : string -> list (list R) * list R) (rank : Z)
        (sigma_init sigma_minimum mu_ratio dropout_rate : option R)
        (self : GPArgProj.t)
        (wm : list R) (bm : R) (Ww : list (list R)) (bw : list R)
        (x : ndarray) (st : rng) :
  GPArgProj.init params rank sigma_init sigma_minimum mu_ratio dropout_rate
  = Ok self ->
  ~ 0 < default 0 dropout_rate ->
  params "mu"%string = ([wm], [bm]) ->
  params "sigma"%string = ([repeat 0 (S (last_dim (shape x)))], [0]) ->
  params "w"%string = (Ww, bw) ->
  length wm = last_dim (shape x) ->
  (1 <= rank)%Z ->
  length Ww = Z.to_nat rank ->
  length bw = Z.to_nat rank ->
  Forall (fun w => length w = last_dim (shape x)) Ww ->
  wf x -> shape x <> [] ->
  (default 1 sigma_init <> 0 ->
   softrelu (lowrank_multivariate_gaussian.inv_softplus (default 1 sigma_init ^ 2))
   = default 1 sigma_init ^ 2) ->
  exists mu D W,
    GPArgProj.hybrid_forward self x st = Ok (mu, D, W, st)
    /\ Forall (fun d =>
                 d = (if Req_dec_T (default 1 sigma_init) 0 then ln 2
                      else default 1 sigma_init ^ 2)
                     + default lowrank_multivariate_gaussian.sigma_minimum
                               sigma_minimum)
              (data D).
Proof.
  intros Hinit Hdr Pm Ps Pw Lwm Hrank LWw Lbw FWw Wx Nx Hinv.
  do 3 eexists. split.
  { eapply hybrid_forward_closed_form; try eassumption.
    now rewrite repeat_length. }
  injection Hinit as <-. simpl data.
  apply Forall_forall. intros d Hd. apply in_map_iff in Hd as (xr & <- & _).
  unfold D_of_row, GPArgProj.d_bias. simpl GPArgProj.sigma_init.
  simpl GPArgProj.sigma_minimum.
  change (0 :: repeat 0 (last_dim (shape x)))
    with (repeat 0 (S (last_dim (shape x)))).
  rewrite dot_zeros.
  destruct (Req_dec_T (default 1 sigma_init) 0) as [E|E].
  - replace (0 + 0 + 0) with 0 by ring. now rewrite softrelu_0.
  - replace (0 + 0 + lowrank_multivariate_gaussian.inv_softplus
                       (default 1 sigma_init ^ 2))
      with (lowrank_multivariate_gaussian.inv_softplus (default 1 sigma_init ^ 2))
      by ring.
    now rewrite Hinv.
Qed.

Lemma untrained_diagonal_witness :
  exists self mu D W,
    GPArgProj.init (I := reference_exports) params_untrained 1
                   (Some 2) None None None = Ok self
    /\ GPArgProj.hybrid_forward (F := inference_engine) (I := reference_exports)
                                self x0 tt = Ok (mu, D, W, tt)
    /\ Forall (fun d => d = (if Req_dec_T 2 0 then ln 2 else 2 ^ 2) + 1 / 1000)
              (data D).
Proof.
  unshelve epose proof
    (@untrained_diagonal inference_engine reference_exports
       params_untrained 1 (Some 2) None None None _ [1; 0] 0 [[1; 1]] [0] x0 tt
       eq_refl _ eq_refl eq_refl eq_refl eq_refl _ eq_refl eq_refl _
       eq_refl _ _) as (mu & D & W & H).
  - simpl; lra.
  - lia.
  - repeat constructor.
  - discriminate.
  - intros _. simpl. apply softrelu_inverse. lra.
  - eexists _, mu, D, W. split; [reflexivity|]. exact H.
Defined.

(** X5.  [mu_ratio] and [sigma_minimum] act at the very end and on nothing
    else: a projector gives, on the same input and generator, the [mu] of
    the projector with mu_ratio = 1 times its mu_ratio, the [D] of the
    projector with sigma_minimum = 0 plus its sigma_minimum, and the same
    [W] and final generator. *)
Theorem ratio_and_floor_act_last
        (F : Engine) (I : lowrank_multivariate_gaussian.exports)
        (params : string -> list (list R) * list R) (rank : Z)
        (sigma_init sigma_minimum mu_ratio dropout_rate : option R)
        (self0 self : GPArgProj.t) (x : ndarray) (st st' : rng)
        (m d W : ndarray) :
  GPArgProj.init params rank sigma_init (Some 0) (Some 1) dropout_rate = Ok self0 ->
  GPArgProj.init params rank sigma_init sigma_minimum mu_ratio dropout_rate
  = Ok self ->
  GPArgProj.hybrid_forward self0 x st = Ok (m, d, W, st') ->
  GPArgProj.hybrid_forward self x st
  = Ok (nd_map (fun v => v * GPArgProj.mu_ratio self) m,
        nd_map (fun v => v + GPArgProj.sigma_minimum self) d,
        W, st').
Proof.
  intros H0 H1 Hf. injection H0 as <-. injection H1 as <-.
  apply hybrid_forward_steps in Hf
    as (p0 & p1 & p2 & y0 & y1 & st1 & st2 & xw
        & G0 & G1 & G2 & Hy0 & HW & Hc & Hy1 & Lm & Ld & -> & ->).
  apply hybrid_forward_steps.
  exists p0, p1, p2, y0, y1, st1, st2, xw.
  repeat (split; [assumption|]).
  simpl GPArgProj.mu_ratio. simpl GPArgProj.sigma_minimum.
  unfold GPArgProj.d_bias. simpl GPArgProj.sigma_init.
  unfold nd_map. simpl. rewrite !map_map. split; f_equal.
  - apply map_ext. intros v. ring.
  - apply map_ext. intros v. ring.
Qed.

Lemma ratio_and_floor_act_last_witness :
  exists self0 self m d W,
    GPArgProj.init (I := reference_exports) params0 1 None (Some 0) (Some 1) None
    = Ok self0
    /\ GPArgProj.init (I := reference_exports) params0 1 None (Some (1 / 2))
                      (Some 3) None = Ok self
    /\ GPArgProj.hybrid_forward (F := inference_engine) (I := reference_exports)
                                self0 x0 tt = Ok (m, d, W, tt)
    /\ GPArgProj.hybrid_forward (F := inference_engine) (I := reference_exports)
                                self x0 tt
       = Ok (nd_map (fun v => v * 3) m, nd_map (fun v => v + 1 / 2) d, W, tt).
Proof.
  unshelve epose proof
    (hybrid_forward_closed_form (F := inference_engine) (I := reference_exports)
       (params := params0) (wm := [1; 0]) (bm := 0) (ws := [0; 0; 1]) (bs := 0)
       (Ww := [[1; 1]]) (bw := [0]) (x := x0) tt
       (eq_refl : GPArgProj.init params0 1 None (Some 0) (Some 1) None = Ok _)
       _ eq_refl eq_refl eq_refl eq_refl eq_refl _ eq_refl eq_refl _ eq_refl _) as H.
  - simpl; lra.
  - lia.
  - repeat constructor.
  - discriminate.
  - eexists _, _, _, _, _.
    split; [reflexivity|]. split; [reflexivity|]. split; [exact H|].
    exact (@ratio_and_floor_act_last inference_engine reference_exports
             params0 1 None (Some (1 / 2)) (Some 3) None _ _ x0 tt tt _ _ _
             eq_refl eq_refl H).
Defined.

(** X6.  Only the square of [sigma_init] reaches the forward pass: built
    with sigma_init = -s, the projector returns what the projector built
    with sigma_init = s returns. *)
Theorem sigma_init_sign_is_ignored
        (F : Engine) (I : lowrank_multivariate_gaussian.exports)
        (params : string -> list (list R) * list R) (rank : Z) (s : R)
        (sigma_minimum mu_ratio dropout_rate : option R)
        (self self' : GPArgProj.t) (x : ndarray) (st : rng) :
  GPArgProj.init params rank (Some s) sigma_minimum mu_ratio dropout_rate
  = Ok self ->
  GPArgProj.init params rank (Some (- s)) sigma_minimum mu_ratio dropout_rate
  = Ok self' ->
  GPArgProj.hybrid_forward self' x st = GPArgProj.hybrid_forward self x st.
Proof.
  intros H H'. injection H as <-. injection H' as <-.
  unfold GPArgProj.hybrid_forward.
  simpl GPArgProj.proj. simpl GPArgProj.mu_ratio. simpl GPArgProj.W_ratio.
  simpl GPArgProj.sigma_minimum.
  assert (E : forall a b c d e f,
             GPArgProj.d_bias
               {| GPArgProj.param_dim_args := a; GPArgProj.mu_ratio := b;
                  GPArgProj.sigma_init := - s; GPArgProj.sigma_minimum := c;
                  GPArgProj.W_ratio := d; GPArgProj.rank := e;
                  GPArgProj.proj := f |}
             = GPArgProj.d_bias
                 {| GPArgProj.param_dim_args := a; GPArgProj.mu_ratio := b;
                    GPArgProj.sigma_init := s; GPArgProj.sigma_minimum := c;
                    GPArgProj.W_ratio := d; GPArgProj.rank := e;
                    GPArgProj.proj := f |}).
  { intros. unfold GPArgProj.d_bias. simpl.
    destruct (Req_dec_T (- s) 0), (Req_dec_T s 0); try reflexivity; try lra.
    f_equal. ring. }
  now rewrite E.
Qed.

Lemma sigma_init_sign_is_ignored_witness :
  exists self self',
    GPArgProj.init (I := reference_exports) params0 1 (Some 2) None None None
    = Ok self
    /\ GPArgProj.init (I := reference_exports) params0 1 (Some (- 2)) None None None
       = Ok self'
    /\ GPArgProj.hybrid_forward (F := inference_engine) (I := reference_exports)
                                self' x0 tt
       = GPArgProj.hybrid_forward (F := inference_engine) (I := reference_exports)
                                  self x0 tt.
Proof.
  eexists _, _. split; [reflexivity|]. split; [reflexivity|].
  exact (@sigma_init_sign_is_ignored inference_engine reference_exports
           params0 1 2 None None None _ _ x0 tt eq_refl eq_refl).
Defined.

(** ** The independent Gaussian: location, scale and mode *)

Lemma Forall2_Rle_firstn n (l l' : list R) :
  Forall2 Rle l l' -> Forall2 Rle (firstn n l) (firstn n l').
Proof.
  intros H; revert n. induction H as [|a b l l' Hab _ IH]; intros [|n];
    simpl; constructor; auto.
Qed.

Lemma Forall2_Rle_skipn n (l l' : list R) :
  Forall2 Rle l l' -> Forall2 Rle (skipn n l) (skipn n l').
Proof.
  intros H; revert n. induction H as [|a b l l' Hab H IH]; intros [|n];
    simpl; auto.
Qed.

Lemma Rsum_le (l l' : list R) : Forall2 Rle l l' -> Rsum l <= Rsum l'.
Proof.
  unfold Rsum. induction 1 as [|a b l l' Hab _ IH]; simpl; lra.
Qed.

Lemma row_sums_le n k (l l' : list R) :
  Forall2 Rle l l' ->
  Forall2 Rle (map Rsum (chunks n k l)) (map Rsum (chunks n k l')).
Proof.
  revert l l'; induction k as [|k IH]; intros l l' H; simpl; constructor.
  - now apply Rsum_le, Forall2_Rle_firstn.
  - now apply IH, Forall2_Rle_skipn.
Qed.

Lemma negated_le (l l' : list R) :
  Forall2 Rle l l' ->
  Forall2 Rle (map (fun v => -1 * v) l') (map (fun v => -1 * v) l).
Proof.
  induction 1 as [|a b l l' Hab _ IH]; simpl; constructor; auto. lra.
Qed.

Lemma log_terms_least_at_mean (dx dm ds : list R) :
  length dx = length dm ->
  Forall2 Rle (map log_term (combine (combine dm dm) ds))
              (map log_term (combine (combine dx dm) ds)).
Proof.
  revert dm ds; induction dx as [|x dx IH]; intros [|m dm] ds H;
    try discriminate; [constructor|].
  destruct ds as [|s ds]; [constructor|].
  simpl. constructor.
  - replace ((m - m) / s) with 0 by (unfold Rdiv; ring).
    pose proof (pow2_ge_0 ((x - m) / s)). lra.
  - apply IH. simpl in H. lia.
Qed.

(** X7.  The density is largest at the mean: for well-formed [mu], [sigma]
    and [x] of one shape, [log_prob(x)] and [log_prob(mu)] both return,
    with one shape, and every entry of [log_prob(x)] is at most the
    matching entry of [log_prob(mu)]. *)
Theorem log_prob_maximal_at_mean (mu sigma x : ndarray) (dim : option Z) :
  wf mu -> wf sigma -> wf x ->
  shape sigma = shape mu -> shape x = shape mu ->
  Forall (fun s => 0 < s) (data sigma) ->
  let d := MultivariateIndependentGaussian.init mu sigma dim in
  exists lp lpm,
    MultivariateIndependentGaussian.log_prob d x = Ok lp
    /\ MultivariateIndependentGaussian.log_prob d mu = Ok lpm
    /\ shape lp = shape lpm
    /\ Forall2 Rle (data lp) (data lpm).
Proof.
  intros Wm Ws Wx Es Ex _ d. unfold d.
  do 2 eexists.
  split; [now apply log_prob_same_shape|].
  split; [now apply log_prob_same_shape|].
  split; [reflexivity|].
  simpl. unfold rows. simpl.
  apply negated_le, row_sums_le, log_terms_least_at_mean.
  unfold wf in Wm, Wx. now rewrite Wm, Wx, Ex.
Qed.

Lemma log_prob_maximal_at_mean_witness :
  let d := MultivariateIndependentGaussian.init mu23 sigma23 None in
  exists lp lpm,
    MultivariateIndependentGaussian.log_prob d sigma23 = Ok lp
    /\ MultivariateIndependentGaussian.log_prob d mu23 = Ok lpm
    /\ shape lp = shape lpm
    /\ Forall2 Rle (data lp) (data lpm).
Proof.
  apply (@log_prob_maximal_at_mean mu23 sigma23 sigma23 None); try reflexivity.
  repeat constructor; lra.
Defined.

Lemma log_terms_shift c (dx dm ds : list R) :
  map log_term (combine (combine (map (fun v => v + c) dx)
                                 (map (fun v => v + c) dm)) ds)
  = map log_term (combine (combine dx dm) ds).
Proof.
  revert dm ds; induction dx as [|x dx IH]; intros [|m dm] ds; try reflexivity.
  destruct ds as [|s ds]; [reflexivity|].
  simpl. rewrite IH. do 2 f_equal.
  replace (x + c - (m + c)) with (x - m) by ring. reflexivity.
Qed.

Lemma log_terms_reflect (dx dm ds : list R) :
  map log_term (combine (combine (map2 (fun m v => 2 * m - v) dm dx) dm) ds)
  = map log_term (combine (combine dx dm) ds).
Proof.
  revert dm ds; induction dx as [|x dx IH]; intros [|m dm] ds; try reflexivity.
  destruct ds as [|s ds]; [reflexivity|].
  simpl. rewrite IH. do 2 f_equal. unfold Rdiv. ring.
Qed.

(** X8.  [log_prob] sees [x] and [mu] only through the distance between
    them: moving [mu] and [x] by one constant changes nothing, and
    neither does reflecting [x] through [mu]. *)
Theorem log_prob_location_family (mu sigma x : ndarray) (dim : option Z) (c : R) :
  wf mu -> wf sigma -> wf x ->
  shape sigma = shape mu -> shape x = shape mu ->
  Forall (fun s => 0 < s) (data sigma) ->
  MultivariateIndependentGaussian.log_prob
    (MultivariateIndependentGaussian.init (nd_map (fun v => v + c) mu) sigma dim)
    (nd_map (fun v => v + c) x)
  = MultivariateIndependentGaussian.log_prob
      (MultivariateIndependentGaussian.init mu sigma dim) x
  /\ MultivariateIndependentGaussian.log_prob
       (MultivariateIndependentGaussian.init mu sigma dim)
       (NDArray (shape mu) (map2 (fun m v => 2 * m - v) (data mu) (data x)))
     = MultivariateIndependentGaussian.log_prob
         (MultivariateIndependentGaussian.init mu sigma dim) x.
Proof.
  intros Wm Ws Wx Es Ex _. split.
  - rewrite !log_prob_same_shape;
      try assumption; try (now apply wf_nd_map); try reflexivity.
    simpl. now rewrite log_terms_shift.
  - rewrite !log_prob_same_shape; try assumption; try reflexivity.
    + simpl. now rewrite log_terms_reflect.
    + apply wf_map2; [exact Wm | unfold wf in Wx; now rewrite Wx, Ex].
Qed.

Lemma log_prob_location_family_witness :
  MultivariateIndependentGaussian.log_prob
    (MultivariateIndependentGaussian.init
       (nd_map (fun v => v + 5) mu23) sigma23 None)
    (nd_map (fun v => v + 5) sigma23)
  = MultivariateIndependentGaussian.log_prob
      (MultivariateIndependentGaussian.init mu23 sigma23 None) sigma23
  /\ MultivariateIndependentGaussian.log_prob
       (MultivariateIndependentGaussian.init mu23 sigma23 None)
       (NDArray (shape mu23)
                (map2 (fun m v => 2 * m - v) (data mu23) (data sigma23)))
     = MultivariateIndependentGaussian.log_prob
         (MultivariateIndependentGaussian.init mu23 sigma23 None) sigma23.
Proof.
  apply (@log_prob_location_family mu23 sigma23 sigma23 None 5); try reflexivity.
  repeat constructor; lra.
Defined.

Lemma log_terms_scale c (dx dm ds : list R) :
  0 < c -> Forall (fun s => 0 < s) ds ->
  map log_term (combine (combine (map (fun v => c * v) dx)
                                 (map (fun v => c * v) dm))
                        (map (fun v => c * v) ds))
  = map (fun t => t + ln c) (map log_term (combine (combine dx dm) ds)).
Proof.
  intros Hc. revert dm ds; induction dx as [|x dx IH]; intros [|m dm] ds Hs;
    try reflexivity.
  destruct ds as [|s ds]; [reflexivity|].
  inversion Hs as [|? ? Hs1 Hs2]; subst.
  simpl. rewrite (IH dm ds Hs2). f_equal.
  rewrite ln_mult by assumption.
  replace ((c * x - c * m) / (c * s)) with ((x - m) / s) by (field; lra).
  ring.
Qed.

Lemma Rsum_map_plus a (l : list R) :
  Rsum (map (fun t => t + a) l) = Rsum l + INR (length l) * a.
Proof.
  unfold Rsum. induction l as [|t l IH]; [simpl; ring|].
  change (length (t :: l)) with (S (length l)). rewrite S_INR.
  simpl fold_right. rewrite IH. ring.
Qed.

Lemma row_sums_shifted a n k (l : list R) :
  length l = (k * n)%nat ->
  map (fun v => -1 * v) (map Rsum (chunks n k (map (fun t => t + a) l)))
  = map (fun v => v - INR n * a) (map (fun v => -1 * v) (map Rsum (chunks n k l))).
Proof.
  intros H. rewrite chunks_map, !map_map.
  apply map_ext_in. intros c Hc.
  pose proof (chunks_block_length n k l H) as Hall.
  rewrite Forall_forall in Hall. specialize (Hall c Hc).
  rewrite Rsum_map_plus, Hall. ring.
Qed.

(** X9.  Rescaling the data: for [c > 0], the distribution with
    parameters [c mu] and [c sigma] gives at [c x] the log density that
    the distribution with [mu] and [sigma] gives at [x], minus log c once
    per coordinate of the trailing axis. *)
Theorem log_prob_scale_family (mu sigma x : ndarray) (dim : option Z) (c : R) :
  0 < c ->
  wf mu -> wf sigma -> wf x ->
  shape sigma = shape mu -> shape x = shape mu -> shape mu <> [] ->
  Forall (fun s => 0 < s) (data sigma) ->
  exists lp,
    MultivariateIndependentGaussian.log_prob
      (MultivariateIndependentGaussian.init mu sigma dim) x = Ok lp
    /\ MultivariateIndependentGaussian.log_prob
         (MultivariateIndependentGaussian.init
            (nd_map (fun v => c * v) mu) (nd_map (fun v => c * v) sigma) dim)
         (nd_map (fun v => c * v) x)
       = Ok (nd_map (fun v => v - INR (last_dim (shape mu)) * ln c) lp).
Proof.
  intros Hc Wm Ws Wx Es Ex Ns Hs.
  eexists. split; [now apply log_prob_same_shape|].
  rewrite log_prob_same_shape;
    try (now apply wf_nd_map); try assumption.
  simpl shape. simpl data. rewrite (log_terms_scale _ _ Hc Hs).
  unfold nd_map, sum_last, rows. simpl. f_equal. f_equal.
  apply row_sums_shifted.
  rewrite length_map, !length_combine.
  unfold wf in Wm, Ws, Wx. rewrite Wm, Ws, Wx, Es, Ex, !Nat.min_id.
  now apply size_lead_last.
Qed.

Lemma log_prob_scale_family_witness :
  exists lp,
    MultivariateIndependentGaussian.log_prob
      (MultivariateIndependentGaussian.init mu23 sigma23 None) sigma23 = Ok lp
    /\ MultivariateIndependentGaussian.log_prob
         (MultivariateIndependentGaussian.init
            (nd_map (fun v => 2 * v) mu23) (nd_map (fun v => 2 * v) sigma23) None)
         (nd_map (fun v => 2 * v) sigma23)
       = Ok (nd_map (fun v => v - INR (last_dim (shape mu23)) * ln 2) lp).
Proof.
  apply (@log_prob_scale_family mu23 sigma23 sigma23 None 2);
    try reflexivity; try lra; try discriminate.
  repeat constructor; lra.
Defined.

(** ** The domain map feeds the distribution *)

(** X11.  In exact real arithmetic, where log(1 + exp(z)) is positive
    for every real [z] (rounding that takes it to 0 for very negative [z]
    is not part of this development): whatever the raw projections of one
    shape, the parameters [domain_map] returns make a distribution on
    which [log_prob] is defined: [mu] is the raw location, [sigma] is a
    well-formed array of the raw shape with every entry positive, and
    [log_prob(x)] returns the log density row by row. *)
Theorem domain_map_feeds_log_prob
        (raw_mu raw_sigma x : ndarray) (dim : option Z) :
  wf raw_mu -> wf raw_sigma -> wf x ->
  shape raw_sigma = shape raw_mu -> shape x = shape raw_mu ->
  let mu := fst (MultivariateIndependentGaussianOutput.domain_map raw_mu raw_sigma) in
  let sigma := snd (MultivariateIndependentGaussianOutput.domain_map raw_mu raw_sigma) in
  mu = raw_mu
  /\ shape sigma = shape raw_sigma
  /\ wf sigma
  /\ Forall (fun s => 0 < s) (data sigma)
  /\ MultivariateIndependentGaussian.log_prob
       (MultivariateIndependentGaussian.init mu sigma dim) x
     = Ok (NDArray (at_least_1d (lead (shape raw_mu)))
                   (map (fun '(xr, mr, sr) => log_density xr mr (map softrelu sr))
                        (combine (combine (rows x) (rows raw_mu))
                                 (rows raw_sigma)))).
Proof.
  intros Wm Ws Wx Es Ex mu sigma. unfold mu, sigma. simpl fst. simpl snd.
  split; [reflexivity|]. split; [reflexivity|].
  split; [now apply wf_nd_map|].
  split.
  { simpl. apply Forall_forall. intros s Hs.
    apply in_map_iff in Hs as (v & <- & _). apply softrelu_pos. }
  rewrite log_prob_same_shape; try assumption; [|now apply wf_nd_map].
  unfold sum_last, nd_map, rows. simpl. rewrite log_prob_rows. f_equal. f_equal.
  rewrite Es, Ex, chunks_map.
  generalize (chunks (last_dim (shape raw_mu)) (size (lead (shape raw_mu))) (data x)).
  generalize (chunks (last_dim (shape raw_mu)) (size (lead (shape raw_mu)))
                     (data raw_mu)).
  generalize (chunks (last_dim (shape raw_mu)) (size (lead (shape raw_mu)))
                     (data raw_sigma)).
  intros S M X. revert M S. induction X as [|xr X IH]; intros [|mr M] S;
    try reflexivity.
  destruct S as [|sr S]; [reflexivity|].
  simpl. now rewrite IH.
Qed.

Lemma domain_map_feeds_log_prob_witness :
  let mu := fst (MultivariateIndependentGaussianOutput.domain_map mu23 sigma23) in
  let sigma := snd (MultivariateIndependentGaussianOutput.domain_map mu23 sigma23) in
  mu = mu23
  /\ shape sigma = shape sigma23
  /\ wf sigma
  /\ Forall (fun s => 0 < s) (data sigma)
  /\ MultivariateIndependentGaussian.log_prob
       (MultivariateIndependentGaussian.init mu sigma None) sigma23
     = Ok (NDArray (at_least_1d (lead (shape mu23)))
                   (map (fun '(xr, mr, sr) => log_density xr mr (map softrelu sr))
                        (combine (combine (rows sigma23) (rows mu23))
                                 (rows sigma23)))).
Proof.
  apply (@domain_map_feeds_log_prob mu23 sigma23 sigma23 None); reflexivity.
Defined.

(** ** The standard deviation of one observation *)

Lemma nth_flat_map_rows (f : nat -> list R) n k a i j :
  (forall t, length (f t) = n) ->
  (i < k)%nat -> (j < n)%nat ->
  nth (i * n + j) (flat_map f (seq a k)) 0 = nth j (f (a + i)%nat) 0.
Proof.
  intros Hf. revert a i. induction k as [|k IH]; intros a i Hi Hj; [lia|].
  simpl. destruct i as [|i].
  - rewrite app_nth1 by (rewrite Hf; simpl; lia).
    simpl. now rewrite Nat.add_0_r.
  - rewrite app_nth2 by (rewrite Hf; simpl; lia).
    rewrite Hf. replace (S i * n + j - n)%nat with (i * n + j)%nat by (simpl; lia).
    rewrite IH by lia. f_equal. f_equal. lia.
Qed.

Lemma diag_length (ds : list R) : length (diag ds) = (length ds * length ds)%nat.
Proof.
  unfold diag. rewrite (@flat_map_length_const _ _ _ (length ds)).
  - now rewrite length_seq.
  - apply Forall_forall. intros i _. now rewrite length_map, length_seq.
Qed.

Lemma nth_map_seq (g : nat -> R) n j :
  (j < n)%nat -> nth j (map g (seq 0 n)) 0 = g j.
Proof.
  intros H.
  rewrite (nth_indep _ 0 (g 0%nat)) by (rewrite length_map, length_seq; lia).
  rewrite (map_nth g (seq 0 n) 0%nat j), seq_nth by lia. reflexivity.
Qed.

Lemma diag_nth (ds : list R) i j :
  (i < length ds)%nat -> (j < length ds)%nat ->
  nth (i * length ds + j) (diag ds) 0 = if (i =? j)%nat then nth i ds 0 else 0.
Proof.
  intros Hi Hj. unfold diag.
  rewrite (@nth_flat_map_rows _ (length ds)); auto.
  - simpl. now rewrite nth_map_seq.
  - intros t. now rewrite length_map, length_seq.
Qed.

(** X12.  For one observation, that is [sigma] a vector of [dim] entries,
    [stddev] returns a well-formed [dim] x [dim] matrix whose entry
    [(i, j)] is [sigma_i] on the diagonal and 0 off it. *)
Theorem stddev_of_one_observation (mu : ndarray) (ds : list R) :
  ds <> [] ->
  exists M,
    MultivariateIndependentGaussian.stddev
      (MultivariateIndependentGaussian.init
         mu (NDArray [length ds] ds) (Some (Z.of_nat (length ds)))) = Ok M
    /\ shape M = [length ds; length ds]
    /\ wf M
    /\ forall i j,
        (i < length ds)%nat -> (j < length ds)%nat ->
        nth (i * length ds + j) (data M) 0
        = if (i =? j)%nat then nth i ds 0 else 0.
Proof.
  intros Hne. eexists. split; [now apply stddev_of_vector|].
  split; [reflexivity|]. split.
  - unfold wf. simpl. rewrite diag_length. lia.
  - intros i j Hi Hj. simpl. now apply diag_nth.
Qed.

Lemma stddev_of_one_observation_witness :
  exists M,
    MultivariateIndependentGaussian.stddev
      (MultivariateIndependentGaussian.init
         x0 (NDArray [3%nat] [1; 2; 3]) (Some 3%Z)) = Ok M
    /\ shape M = [3%nat; 3%nat]
    /\ wf M
    /\ forall i j,
        (i < 3)%nat -> (j < 3)%nat ->
        nth (i * 3 + j) (data M) 0
        = if (i =? j)%nat then nth i [1; 2; 3] 0 else 0.
Proof.
  apply (@stddev_of_one_observation x0 [1; 2; 3]). discriminate.
Defined.

Lemma broadcast_shape_mismatch n m :
  n <> m -> n <> 1%nat -> m <> 1%nat -> broadcast_shape [n] [m; m] = None.
Proof.
  intros Hnm Hn Hm. unfold broadcast_shape, pad. simpl.
  apply Nat.eqb_neq in Hnm, Hn, Hm. now rewrite Hnm, Hn, Hm.
Qed.

(** X13.  [stddev] raises when [dim] is below 1, and when [dim] is not
    the number of entries of the vector [sigma] (neither of them being
    1): it does not return a matrix of the wrong size. *)
Theorem stddev_raises_on_wrong_dim (mu : ndarray) (ds : list R) (dim : Z) :
  (dim < 1)%Z
  \/ (Z.to_nat dim <> length ds /\ length ds <> 1%nat /\ dim <> 1%Z) ->
  MultivariateIndependentGaussian.stddev
    (MultivariateIndependentGaussian.init mu (NDArray [length ds] ds) (Some dim))
  = Raise MXNetError.
Proof.
  intros H.
  unfold MultivariateIndependentGaussian.stddev,
    MultivariateIndependentGaussian.init.
  simpl MultivariateIndependentGaussian.dim.
  simpl MultivariateIndependentGaussian.sigma. cbv iota beta.
  unfold eye. destruct (Z.leb_spec 1 dim) as [Hd|Hd].
  - destruct H as [H|(H1 & H2 & H3)]; [lia|].
    unfold rbind, broadcast_op. simpl shape.
    rewrite broadcast_shape_mismatch; auto. lia.
  - reflexivity.
Qed.

Lemma stddev_raises_on_wrong_dim_witness :
  MultivariateIndependentGaussian.stddev
    (MultivariateIndependentGaussian.init x0 (NDArray [3%nat] [1; 2; 3]) (Some 2%Z))
  = Raise MXNetError.
Proof.
  apply (@stddev_raises_on_wrong_dim x0 [1; 2; 3] 2).
  right. simpl. repeat split; lia.
Defined.

(** ** The output adapter and its projector *)

(** X14.  The adapter and the projector it builds declare the same
    widths: the projector's [param_dim_args] is the adapter's [args_dim],
    and its three nets start with dense layers of 1, 1 and rank units,
    named after mu, sigma and w in that order; the projector takes over
    the adapter's sigma_init and mu_ratio, and its nets carry dropout
    exactly when the adapter's dropout_rate is positive. *)
Theorem adapter_and_projector_agree
        (I : lowrank_multivariate_gaussian.exports)
        (params : string -> list (list R) * list R)
        (rank : Z) (dim : option Z) (sigma_init mu_ratio dropout_rate : option R) :
  let out := LowrankGPOutput.init rank dim sigma_init mu_ratio dropout_rate in
  exists proj,
    LowrankGPOutput.get_args_proj params out = Ok proj
    /\ GPArgProj.param_dim_args proj = LowrankGPOutput.args_dim out
    /\ map (fun net => match net with
                       | LDense d :: _ => Some (prefix d, units d)
                       | _ => None
                       end) (GPArgProj.proj proj)
       = map (fun '(name, width) => Some (("distr_" ++ name ++ "_")%string, width))
             (LowrankGPOutput.args_dim out)
    /\ GPArgProj.sigma_init proj = default 1 sigma_init
    /\ GPArgProj.mu_ratio proj = default 1 mu_ratio
    /\ Forall (fun net => In (LDropout (default 0 dropout_rate)) net
                          <-> 0 < default 0 dropout_rate)
              (GPArgProj.proj proj).
Proof.
  simpl. eexists. split; [reflexivity|]. simpl.
  split; [reflexivity|].
  split; [now rewrite !make_head|].
  split; [reflexivity|]. split; [reflexivity|].
  assert (Hd : forall name pd,
             In (LDropout (default 0 dropout_rate))
                (GPArgProj.make params (default 0 dropout_rate) name pd)
             <-> 0 < default 0 dropout_rate).
  { intros name pd. rewrite make_head.
    destruct (Rlt_dec 0 (default 0 dropout_rate)) as [H|H]; simpl.
    - split; auto.
    - split; [intros [E|[]]; discriminate E | contradiction]. }
  repeat constructor; apply Hd.
Qed.

(** ** Reparameterised samples *)

Lemma concat_repeat_length (d : list R) k :
  length (concat (repeat d k)) = (k * length d)%nat.
Proof.
  induction k as [|k IH]; simpl; auto. now rewrite length_app, IH.
Qed.

Lemma expand_param_Ok p num_samples p' :
  wf p -> expand_param p num_samples = Ok p' ->
  wf p'
  /\ shape p' = match num_samples with
                | None => shape p
                | Some k => Z.to_nat k :: shape p
                end.
Proof.
  intros W H. destruct num_samples as [k|]; simpl in H.
  - destruct (1 <=? k)%Z; [|discriminate]. injection H as <-.
    split; [|reflexivity]. unfold wf in *. simpl.
    now rewrite concat_repeat_length, W.
  - injection H as <-. now split.
Qed.

(** X15.  A reparameterised sample is the noise scaled and shifted: when
    the generator, asked for standard normal noise of the shape of the
    (expanded) parameters, hands back [z], [sample_rep] returns
    [sigma * z + mu] entry by entry and the generator the draw left; its
    shape is that of [mu], behind a leading axis of [num_samples] entries
    when [num_samples] is given. *)
Theorem sample_rep_scales_and_shifts_noise
        (F : Engine) (mu sigma mu' sigma' z : ndarray)
        (dim num_samples : option Z) (st st' : rng) :
  wf mu -> wf sigma -> shape sigma = shape mu ->
  expand_param mu num_samples = Ok mu' ->
  expand_param sigma num_samples = Ok sigma' ->
  sample_normal (zeros_like mu') (ones_like sigma') st = Ok (z, st') ->
  wf z -> shape z = shape mu' ->
  MultivariateIndependentGaussian.sample_rep
    (MultivariateIndependentGaussian.init mu sigma dim) num_samples st
  = Ok (NDArray (match num_samples with
                 | None => shape mu
                 | Some k => Z.to_nat k :: shape mu
                 end)
                (map2 Rplus (map2 Rmult (data sigma') (data z)) (data mu')),
        st').
Proof.
  intros Wm Ws Es Hm Hs Hz Wz Ez.
  destruct (expand_param_Ok _ Wm Hm) as [Wm' Sm'].
  destruct (expand_param_Ok _ Ws Hs) as [Ws' Ss'].
  assert (Es' : shape sigma' = shape mu') by (rewrite Sm', Ss', Es; reflexivity).
  unfold MultivariateIndependentGaussian.sample_rep,
    MultivariateIndependentGaussian.init, sample_multiple.
  simpl MultivariateIndependentGaussian.mu.
  simpl MultivariateIndependentGaussian.sigma.
  unfold bind, lift. rewrite Hm, Hs, Hz.
  rewrite (@broadcast_op_same Rmult sigma' z Ws' Wz) by now rewrite Ez, Es'.
  rewrite broadcast_op_same.
  - simpl. now rewrite Es', Sm'.
  - apply wf_map2; unfold wf in *; [exact Ws' | now rewrite Wz, Ez, Es'].
  - exact Wm'.
  - simpl. now rewrite Es'.
Qed.

Lemma sample_rep_scales_and_shifts_noise_witness :
  MultivariateIndependentGaussian.sample_rep (F := inference_engine)
    (MultivariateIndependentGaussian.init mu23 sigma23 None) (Some 2%Z) tt
  = Ok (NDArray [2%nat; 2%nat; 3%nat]
                (map2 Rplus
                      (map2 Rmult (concat (repeat (data sigma23) 2))
                            (map (fun _ => 0) (concat (repeat (data mu23) 2))))
                      (concat (repeat (data mu23) 2))),
        tt).
Proof.
  apply (@sample_rep_scales_and_shifts_noise inference_engine mu23 sigma23
           (NDArray [2%nat; 2%nat; 3%nat] (concat (repeat (data mu23) 2)))
           (NDArray [2%nat; 2%nat; 3%nat] (concat (repeat (data sigma23) 2)))
           (NDArray [2%nat; 2%nat; 3%nat]
                    (map (fun _ => 0) (concat (repeat (data mu23) 2))))
           None (Some 2%Z) tt tt); reflexivity.
Defined.

(** ** Observations of another shape than the parameters *)

Lemma bshape_mismatch s1 s2 i :
  length s1 = length s2 -> (i < length s1)%nat ->
  nth i s1 0%nat <> nth i s2 0%nat ->
  nth i s1 0%nat <> 1%nat -> nth i s2 0%nat <> 1%nat ->
  bshape s1 s2 = None.
Proof.
  revert s2 i; induction s1 as [|a s1 IH]; intros [|b s2] i L Hi Hd H1 H2;
    simpl in *; try lia.
  destruct i as [|i].
  - apply Nat.eqb_neq in Hd, H1, H2. rewrite Hd, H1, H2.
    now destruct (bshape s1 s2).
  - rewrite (IH s2 i); auto; lia.
Qed.

Lemma broadcast_op_mismatch f a b i :
  length (shape a) = length (shape b) -> (i < length (shape a))%nat ->
  nth i (shape a) 0%nat <> nth i (shape b) 0%nat ->
  nth i (shape a) 0%nat <> 1%nat -> nth i (shape b) 0%nat <> 1%nat ->
  broadcast_op f a b = Raise MXNetError.
Proof.
  intros L Hi Hd H1 H2. unfold broadcast_op, broadcast_shape.
  rewrite <- L, Nat.max_id, pad_same. rewrite L at 1. rewrite pad_same.
  now rewrite (bshape_mismatch _ _ L Hi Hd H1 H2).
Qed.

(** X16.  Shapes that do not fit are reported: where [x] has as many axes
    as [mu] and, along one of them, another extent than [mu], neither
    extent being 1, [log_prob] raises an engine error. *)
Theorem mismatched_observation_raises
        (mu sigma x : ndarray) (dim : option Z) (i : nat) :
  length (shape x) = length (shape mu) ->
  (i < length (shape x))%nat ->
  nth i (shape x) 0%nat <> nth i (shape mu) 0%nat ->
  nth i (shape x) 0%nat <> 1%nat ->
  nth i (shape mu) 0%nat <> 1%nat ->
  MultivariateIndependentGaussian.log_prob
    (MultivariateIndependentGaussian.init mu sigma dim) x = Raise MXNetError.
Proof.
  intros L Hi Hd H1 H2.
  unfold MultivariateIndependentGaussian.log_prob,
    MultivariateIndependentGaussian.init.
  simpl MultivariateIndependentGaussian.mu.
  now rewrite (broadcast_op_mismatch Rminus x mu L Hi Hd H1 H2).
Qed.

Lemma mismatched_observation_raises_witness :
  MultivariateIndependentGaussian.log_prob
    (MultivariateIndependentGaussian.init mu23 sigma23 None) x0 = Raise MXNetError.
Proof.
  apply (@mismatched_observation_raises mu23 sigma23 x0 None 1); simpl; lia.
Defined.

Lemma chunks_concat_repeat (d : list R) k :
  chunks (length d) k (concat (repeat d k)) = repeat d k.
Proof.
  induction k as [|k IH]; [reflexivity|].
  simpl. rewrite firstn_app, skipn_app, Nat.sub_diag, firstn_all, skipn_all.
  simpl. now rewrite app_nil_r, IH.
Qed.

Lemma bcast_tile (d : list R) k :
  bcast [1%nat; length d] [k; length d] d = concat (repeat d k).
Proof.
  rewrite bcast_cons.
  assert (Hs : size [length d] = length d) by (simpl; lia).
  destruct (Nat.eqb_spec 1 k) as [<-|E].
  - rewrite flat_map_id_on.
    + rewrite concat_chunks by (rewrite Hs; lia). simpl. now rewrite app_nil_r.
    + eapply Forall_impl;
        [|apply (@chunks_block_length _ (size [length d]) 1 d); rewrite Hs; lia].
      intros c Hc. simpl in Hc. now apply bcast_same.
  - now rewrite bcast_same.
Qed.

Lemma broadcast_shape_observation n k :
  broadcast_shape [n] [k; n] = Some [k; n].
Proof.
  unfold broadcast_shape, pad. simpl. rewrite Nat.eqb_refl.
  destruct k as [|[|k]]; reflexivity.
Qed.

Lemma scored_against_rows (dx : list R) (M S : list (list R)) :
  map (fun '(xr, mr, sr) => log_density xr mr sr)
      (combine (combine (repeat dx (length M)) M) S)
  = map (fun '(mr, sr) => log_density dx mr sr) (combine M S).
Proof.
  revert S; induction M as [|mr M IH]; intros S; [reflexivity|].
  destruct S as [|sr S]; [reflexivity|].
  simpl. now rewrite IH.
Qed.

(** X17.  One observation is scored against the whole batch: for [mu]
    and [sigma] of shape [(k, n)] and a single [x] of [n] entries,
    [log_prob(x)] returns [k] entries, the log density of [x] under each
    row of the parameters. *)
Theorem log_prob_of_one_observation
        (dx dm ds : list R) (k : nat) (dim : option Z) :
  length dm = (k * length dx)%nat ->
  length ds = (k * length dx)%nat ->
  Forall (fun s => 0 < s) ds ->
  let mu := NDArray [k; length dx] dm in
  let sigma := NDArray [k; length dx] ds in
  MultivariateIndependentGaussian.log_prob
    (MultivariateIndependentGaussian.init mu sigma dim) (NDArray [length dx] dx)
  = Ok (NDArray [k]
                (map (fun '(mr, sr) => log_density dx mr sr)
                     (combine (rows mu) (rows sigma)))).
Proof.
  intros Lm Ls _ mu sigma.
  assert (Wm : wf mu) by (unfold wf; simpl; lia).
  assert (Wsg : wf sigma) by (unfold wf; simpl; lia).
  set (tiled := NDArray [k; length dx] (concat (repeat dx k))).
  assert (Wt : wf tiled).
  { unfold wf, tiled. simpl. rewrite concat_repeat_length. lia. }
  assert (E : forall f, broadcast_op f (NDArray [length dx] dx) mu
                        = broadcast_op f tiled mu).
  { intros f. rewrite (broadcast_op_same f Wt Wm eq_refl).
    unfold broadcast_op. simpl shape. rewrite broadcast_shape_observation.
    unfold broadcast_to at 1. simpl shape. simpl data.
    change (pad (length [k; length dx]) [length dx]) with [1%nat; length dx].
    rewrite bcast_tile.
    pose proof (broadcast_to_same Wm) as Hm. simpl shape in Hm. now rewrite Hm. }
  transitivity (MultivariateIndependentGaussian.log_prob
                  (MultivariateIndependentGaussian.init mu sigma dim) tiled).
  { unfold MultivariateIndependentGaussian.log_prob,
      MultivariateIndependentGaussian.init.
    simpl MultivariateIndependentGaussian.mu. now rewrite E. }
  rewrite log_prob_same_shape; try assumption; try reflexivity.
  unfold sum_last, nd_map, rows. simpl shape. simpl data.
  unfold lead, last_dim. simpl removelast. simpl last. simpl size.
  rewrite Nat.mul_1_r, log_prob_rows, chunks_concat_repeat.
  destruct k as [|k].
  - reflexivity.
  - simpl at_least_1d. f_equal. f_equal.
    rewrite <- (chunks_length (length dx) (S k) dm) at 1.
    apply scored_against_rows.
Qed.

Lemma log_prob_of_one_observation_witness :
  MultivariateIndependentGaussian.log_prob
    (MultivariateIndependentGaussian.init mu23 sigma23 None)
    (NDArray [3%nat] [1; 2; 3])
  = Ok (NDArray [2%nat]
                (map (fun '(mr, sr) => log_density [1; 2; 3] mr sr)
                     (combine (rows mu23) (rows sigma23)))).
Proof.
  apply (@log_prob_of_one_observation [1; 2; 3]
           [0; 0; 0; 0; 0; 0] [1; 1; 1; 1; 1; 1] 2 None); try reflexivity.
  repeat constructor; lra.
Defined.

(** ** The forward pass with dropout *)

Lemma wf_Dense_output d x :
  Dense_ok d (last_dim (shape x)) = true ->
  wf (NDArray (lead (shape x) ++ [Z.to_nat (units d)])
              (flat_map (Dense_row d) (rows x))).
Proof.
  intros H. unfold wf. simpl. rewrite size_app.
  rewrite (@flat_map_length_const _ _ _ (Z.to_nat (units d))).
  - rewrite rows_length. simpl. lia.
  - apply Forall_forall. intros r _. eapply Dense_row_length; eauto.
Qed.

Section ShapeKeepingDropout.
Context {F : Engine}.
Hypothesis Dropout_keeps_shape :
  forall rate y st, wf y ->
    exists y' st', Dropout rate y st = Ok (y', st') /\ shape y' = shape y /\ wf y'.

Lemma net_forward_make params dropout_rate name param_dim x st :
  Dense_ok {| units := param_dim;
              prefix := "distr_" ++ name ++ "_";
              weight := fst (params name);
              bias := snd (params name) |} (last_dim (shape x)) = true ->
  exists y st',
    net_forward (GPArgProj.make params dropout_rate name param_dim) x st
    = Ok (y, st')
    /\ shape y = lead (shape x) ++ [Z.to_nat param_dim]
    /\ wf y.
Proof.
  intros H. rewrite make_head.
  change (net_forward (?l :: ?net) x st)
    with (bind (layer_forward l x) (fun y => net_forward net y) st).
  unfold bind at 1. unfold layer_forward, lift.
  rewrite (Dense_forward_Ok _ _ H).
  pose proof (wf_Dense_output _ _ H) as Wy. cbn [units] in *.
  destruct (Rlt_dec 0 dropout_rate).
  - cbn [net_forward layer_forward]. unfold bind, ret.
    destruct (Dropout_keeps_shape dropout_rate st Wy) as (y' & st' & Hd & Sy & Wy').
    rewrite Hd. now exists y', st'.
  - cbn [net_forward]. unfold ret. eexists _, st. now repeat split.
Qed.

(** X18.  With or without dropout, as long as dropout hands back an array
    of the shape it was given, the forward pass returns for features of
    shape [(..., hidden)] and layers holding parameters of the shapes they
    declare: [mu] and [D] are well formed with the leading shape of [x],
    [W] is well formed with that shape followed by the rank. *)
Theorem forward_shapes_under_dropout
        (I : lowrank_multivariate_gaussian.exports)
        (params : string -> list (list R) * list R) (rank : Z)
        (sigma_init sigma_minimum mu_ratio dropout_rate : option R)
        (self : GPArgProj.t)
        (wm : list R) (bm : R) (ws : list R) (bs : R)
        (Ww : list (list R)) (bw : list R) (x : ndarray) (st : rng) :
  GPArgProj.init params rank sigma_init sigma_minimum mu_ratio dropout_rate
  = Ok self ->
  params "mu"%string = ([wm], [bm]) ->
  params "sigma"%string = ([ws], [bs]) ->
  params "w"%string = (Ww, bw) ->
  length wm = last_dim (shape x) ->
  length ws = S (last_dim (shape x)) ->
  (1 <= rank)%Z ->
  length Ww = Z.to_nat rank ->
  length bw = Z.to_nat rank ->
  Forall (fun w => length w = last_dim (shape x)) Ww ->
  exists mu D W st',
    GPArgProj.hybrid_forward self x st = Ok (mu, D, W, st')
    /\ shape mu = at_least_1d (lead (shape x))
    /\ shape D = at_least_1d (lead (shape x))
    /\ shape W = lead (shape x) ++ [Z.to_nat rank]
    /\ wf mu /\ wf D /\ wf W.
Proof.
  intros Hinit Pm Ps Pw Lwm Lws Hrank LWw Lbw FWw.
  injection Hinit as <-.
  set (dr := default 0 dropout_rate).
  destruct (net_forward_make params dr "mu" 1 x st) as (y0 & st1 & Hy0 & Sy0 & Wy0).
  { rewrite Pm. apply Dense_ok_spec. simpl. repeat split; auto; lia. }
  destruct (net_forward_make params dr "w" rank x st1)
    as (y2 & st2 & Hy2 & Sy2 & Wy2).
  { rewrite Pw. apply Dense_ok_spec. simpl. repeat split; auto. }
  set (xw := NDArray (lead (shape x) ++ [(last_dim (shape x) + 1)%nat])
                     (concat (map2 (fun xr wr => xr ++ [Rsum (map Rsqr wr)])
                                   (rows x) (rows y2)))).
  destruct (net_forward_make params dr "sigma" 1 xw st2)
    as (y1 & st3 & Hy1 & Sy1 & Wy1).
  { rewrite Ps. apply Dense_ok_spec. unfold xw. simpl shape.
    rewrite last_dim_snoc. simpl. repeat split; auto; try lia.
    constructor; [lia | constructor]. }
  unfold xw in Sy1. simpl shape in Sy1. rewrite lead_snoc in Sy1.
  do 4 eexists. split.
  { apply hybrid_forward_steps. simpl GPArgProj.proj. fold dr.
    exists (GPArgProj.make params dr "mu" 1), (GPArgProj.make params dr "sigma" 1),
      (GPArgProj.make params dr "w" rank), y0, y1, st1, st2, xw.
    split; [reflexivity|]. split; [reflexivity|]. split; [reflexivity|].
    split; [exact Hy0|].
    split; [exists y2; split; [exact Hy2 | reflexivity]|].
    split.
    { simpl GPArgProj.W_ratio. rewrite nd_map_mult_1, concat_x_sum_sq.
      rewrite Sy2, lead_snoc.
      destruct (list_eq_dec Nat.eq_dec (lead (shape x)) (lead (shape x)));
        [reflexivity | contradiction]. }
    split; [exact Hy1|].
    split; [rewrite Sy0; apply last_dim_snoc|].
    split; [rewrite Sy1; apply last_dim_snoc|].
    split; reflexivity. }
  simpl GPArgProj.W_ratio. rewrite nd_map_mult_1.
  simpl shape. rewrite Sy0, Sy1, !lead_snoc.
  split; [reflexivity|]. split; [reflexivity|]. split; [exact Sy2|].
  unfold wf in *. simpl. rewrite !length_map, size_at_least_1d.
  rewrite Wy0, Wy1, Sy0, Sy1, !size_app. simpl.
  split; [lia|]. split; [lia | exact Wy2].
Qed.
End ShapeKeepingDropout.

Lemma forward_shapes_under_dropout_witness :
  exists self mu D W st',
    GPArgProj.init (I := reference_exports) params0 1 None None None (Some (1 / 2))
    = Ok self
    /\ GPArgProj.hybrid_forward (F := inference_engine) (I := reference_exports)
                                self x0 tt = Ok (mu, D, W, st')
    /\ shape mu = [2%nat] /\ shape D = [2%nat] /\ shape W = [2%nat; 1%nat]
    /\ wf mu /\ wf D /\ wf W.
Proof.
  unshelve epose proof
    (@forward_shapes_under_dropout inference_engine _ reference_exports
       params0 1 None None None (Some (1 / 2)) _ [1; 0] 0 [0; 0; 1] 0
       [[1; 1]] [0] x0 tt
       eq_refl eq_refl eq_refl eq_refl eq_refl eq_refl _ eq_refl eq_refl _)
    as (mu & D & W & st' & H).
  - intros rate y st Wy. exists y, st. now repeat split.
  - lia.
  - repeat constructor.
  - eexists _, mu, D, W, st'. split; [reflexivity|]. exact H.
Defined.

(** ** The forward pass in closed form *)

Lemma net_forward_Dense_passing {F : Engine} d dropout_rate x st :
  Dense_ok d (last_dim (shape x)) = true ->
  (0 < dropout_rate -> forall y s, Dropout dropout_rate y s = Ok (y, s)) ->
  net_forward (LDense d :: (if Rlt_dec 0 dropout_rate
                            then [LDropout dropout_rate] else [])) x st
  = Ok (NDArray (lead (shape x) ++ [Z.to_nat (units d)])
                (flat_map (Dense_row d) (rows x)), st).
Proof.
  intros H Hdrop.
  change (net_forward (?l :: ?net) x st)
    with (bind (layer_forward l x) (fun y => net_forward net y) st).
  unfold bind at 1. unfold layer_forward, lift.
  rewrite (Dense_forward_Ok _ _ H).
  destruct (Rlt_dec 0 dropout_rate) as [Hr|Hr].
  - cbn [net_forward layer_forward]. unfold bind, ret.
    now rewrite (Hdrop Hr).
  - reflexivity.
Qed.

(** C2.  For a projector built by [__init__], features [x] of shape
    [(..., hidden)] and layers holding parameters of the shapes they
    declare, where the nets carry no dropout or dropout passes its input
    through (as it does outside training), the forward pass returns
    [(mu, D, W)] and leaves the generator as it was.  Row by row of [x]:
    [mu] is the mu linear projection times [mu_ratio]; [W] is the w
    linear projection; [D] is softplus(s + bias) + sigma_minimum, where
    [s] is the sigma linear projection of the row extended by one entry,
    the sum of squares of the row's [W], and bias is
    inv_softplus(sigma_init^2) when sigma_init is not 0, and 0
    otherwise. *)
Theorem forward_pass_formula
        (F : Engine) (I : lowrank_multivariate_gaussian.exports)
        (params : string -> list (list R) * list R) (rank : Z)
        (sigma_init sigma_minimum mu_ratio dropout_rate : option R)
        (self : GPArgProj.t)
        (wm : list R) (bm : R) (ws : list R) (bs : R)
        (Ww : list (list R)) (bw : list R) (x : ndarray) (st : rng) :
  GPArgProj.init params rank sigma_init sigma_minimum mu_ratio dropout_rate
  = Ok self ->
  (0 < default 0 dropout_rate ->
   forall y s, Dropout (default 0 dropout_rate) y s = Ok (y, s)) ->
  params "mu"%string = ([wm], [bm]) ->
  params "sigma"%string = ([ws], [bs]) ->
  params "w"%string = (Ww, bw) ->
  length wm = last_dim (shape x) ->
  length ws = S (last_dim (shape x)) ->
  (1 <= rank)%Z ->
  length Ww = Z.to_nat rank ->
  length bw = Z.to_nat rank ->
  Forall (fun w => length w = last_dim (shape x)) Ww ->
  wf x -> shape x <> [] ->
  let bias :=
    if Req_dec_T (GPArgProj.sigma_init self) 0 then 0
    else lowrank_multivariate_gaussian.inv_softplus (GPArgProj.sigma_init self ^ 2) in
  let W_row xr := map2 (fun w b => dot xr w + b) Ww bw in
  GPArgProj.hybrid_forward self x st =
  Ok (NDArray (at_least_1d (lead (shape x)))
              (map (fun xr => (dot xr wm + bm) * GPArgProj.mu_ratio self) (rows x)),
      NDArray (at_least_1d (lead (shape x)))
              (map (fun xr =>
                      softrelu (dot (xr ++ [Rsum (map Rsqr (W_row xr))]) ws + bs
                                + bias)
                      + GPArgProj.sigma_minimum self) (rows x)),
      NDArray (lead (shape x) ++ [Z.to_nat rank]) (flat_map W_row (rows x)),
      st).
Proof.
  intros Hinit Hdrop Pm Ps Pw Lwm Lws Hrank LWw Lbw FWw Wx Nx shift W_row.
  injection Hinit as <-.
  set (dr := default 0 dropout_rate) in *.
  set (h := last_dim (shape x)) in *.
  set (dm := {| units := 1; prefix := "distr_mu_";
                weight := [wm]; bias := [bm] |}).
  set (dsg := {| units := 1; prefix := "distr_sigma_";
                 weight := [ws]; bias := [bs] |}).
  set (dw := {| units := rank; prefix := "distr_w_";
                weight := Ww; bias := bw |}).
  assert (Okm : Dense_ok dm h = true).
  { apply Dense_ok_spec. simpl. repeat split; auto; lia. }
  assert (Oks : Dense_ok dsg (S h) = true).
  { apply Dense_ok_spec. simpl. repeat split; auto; lia. }
  assert (Okw : Dense_ok dw h = true).
  { apply Dense_ok_spec. simpl. repeat split; auto. }
  set (Wm := NDArray (lead (shape x) ++ [Z.to_nat rank])
                     (flat_map W_row (rows x))).
  assert (RW : rows Wm = map W_row (rows x)).
  { apply (rows_Dense dw x Okw). }
  set (xw := NDArray (lead (shape x) ++ [(h + 1)%nat])
                     (concat (map2 (fun xr wr => xr ++ [Rsum (map Rsqr wr)])
                                   (rows x) (rows Wm)))).
  assert (Rxw : rows xw =
                map (fun xr => xr ++ [Rsum (map Rsqr (W_row xr))]) (rows x)).
  { unfold xw. rewrite RW, map2_diag, <- flat_map_concat_map.
    apply rows_build; [apply rows_length|].
    eapply Forall_impl; [|apply (rows_block_length Wx Nx)].
    intros r Hr. simpl in Hr. rewrite length_app, Hr. reflexivity. }
  assert (Lxw : last_dim (shape xw) = S h).
  { unfold xw. simpl shape. rewrite last_dim_snoc. lia. }
  apply hybrid_forward_steps. simpl GPArgProj.proj. fold dr.
  rewrite !make_head, Pm, Ps, Pw. simpl fst; simpl snd. fold dm dsg dw.
  do 3 eexists.
  exists (NDArray (lead (shape x) ++ [1%nat]) (flat_map (Dense_row dm) (rows x))).
  exists (NDArray (lead (shape xw) ++ [1%nat]) (flat_map (Dense_row dsg) (rows xw))).
  exists st, st, xw.
  split; [reflexivity|]. split; [reflexivity|]. split; [reflexivity|].
  split; [apply (@net_forward_Dense_passing _ dm dr x st Okm Hdrop)|].
  split.
  { exists Wm. split; [apply (@net_forward_Dense_passing _ dw dr x st Okw Hdrop)|].
    simpl GPArgProj.W_ratio. now rewrite nd_map_mult_1. }
  split.
  { rewrite concat_x_sum_sq. unfold Wm at 1. simpl shape. rewrite lead_snoc.
    destruct (list_eq_dec Nat.eq_dec (lead (shape x)) (lead (shape x)));
      [reflexivity | contradiction]. }
  split.
  { apply (@net_forward_Dense_passing _ dsg dr xw st); [|exact Hdrop].
    rewrite Lxw. exact Oks. }
  split; [simpl; apply last_dim_snoc|].
  split; [simpl; apply last_dim_snoc|].
  split.
  - simpl shape. rewrite lead_snoc. f_equal. simpl data.
    unfold Dense_row; simpl. rewrite flat_map_singleton, map_map. reflexivity.
  - simpl shape. rewrite !lead_snoc. f_equal. simpl data.
    rewrite Rxw. unfold Dense_row; simpl.
    rewrite flat_map_singleton, !map_map. reflexivity.
Qed.

Lemma forward_pass_formula_witness :
  exists self,
    GPArgProj.init (I := reference_exports) params0 1 None None None (Some (1 / 2))
    = Ok self
    /\ GPArgProj.hybrid_forward (F := inference_engine) (I := reference_exports)
                                self x0 tt
       = Ok (NDArray [2%nat] [1; 3],
             NDArray [2%nat]
                     [softrelu (9 + ln (exp (1 ^ 2) - 1)) + 1 / 1000;
                      softrelu (49 + ln (exp (1 ^ 2) - 1)) + 1 / 1000],
             NDArray [2%nat; 1%nat] [3; 7],
             tt).
Proof.
  eexists. split; [reflexivity|].
  rewrite (@forward_pass_formula inference_engine reference_exports
             params0 1 None None None (Some (1 / 2)) _
             [1; 0] 0 [0; 0; 1] 0 [[1; 1]] [0] x0 tt eq_refl).
  - simpl GPArgProj.sigma_init. simpl GPArgProj.mu_ratio.
    simpl GPArgProj.sigma_minimum.
    destruct (Req_dec_T 1 0) as [E|_]; [lra|].
    unfold dot, Rsum, Rsqr. simpl.
    repeat f_equal; ring.
  - intros _ y s. reflexivity.
  - reflexivity.
  - reflexivity.
  - reflexivity.
  - reflexivity.
  - reflexivity.
  - lia.
  - reflexivity.
  - reflexivity.
  - repeat constructor.
  - reflexivity.
  - discriminate.
Defined.
